(** * vcr.stubs: the transport interception layer of vcrpy

    A shallow embedding of [vcr/stubs/__init__.py] and the properties of it
    that the specification states.

    Conventions of the embedding.
    - A Python [str]/[bytes] value is a [string] (a sequence of octets);
      [lower] and [upper] act on the ASCII letters, which is what they do on
      header names.
    - A Python [dict] is an association list in insertion order with
      pairwise distinct keys ([dict_wf]); [d[k] = v] keeps the position of
      a key that is present and appends a new one ([dict_set]).
    - The header mapping of a [Request] (a class of another module) is
      an association list too, whose names are looked up and stored
      without regard to letter case ([ci_get], [ci_set]).
    - [io.BytesIO] is a buffer and a read position; a read of a size that
      does not fit an index raises [OverflowError].
    - The recorded response records are shared between the cassette and the
      responses built from them, and are mutated in place: they live in a
      store and are referred to by location.
    - The modules that this one calls and that are not part of it (the real
      connection of the standard library, the cassette, [compat]) are type
      classes; every call on the real connection is appended to the
      [trace] of the world.
    - A method is a computation in the monad [M]: it reads and updates the
      [World] and either returns or raises. *)

From Stdlib Require Import String Ascii ZArith Lia Bool.
From Stdlib Require Import Numbers.DecimalString.
From stdpp Require Import base option list gmap strings.

Local Open Scope Z_scope.
Local Open Scope list_scope.

(* ===================================================================== *)
(** * Strings *)
(* ===================================================================== *)

Module Str.

Definition is_upper (c : ascii) : bool :=
  let n := N_of_ascii c in ((65 <=? n) && (n <=? 90))%N.

Definition is_lower (c : ascii) : bool :=
  let n := N_of_ascii c in ((97 <=? n) && (n <=? 122))%N.

Definition lower_ascii (c : ascii) : ascii :=
  if is_upper c then ascii_of_N (N_of_ascii c + 32) else c.

Definition upper_ascii (c : ascii) : ascii :=
  if is_lower c then ascii_of_N (N_of_ascii c - 32) else c.

(** [s.lower()] *)
Fixpoint lower (s : string) : string :=
  match s with
  | EmptyString => EmptyString
  | String c s' => String (lower_ascii c) (lower s')
  end.

(** [s.upper()] *)
Fixpoint upper (s : string) : string :=
  match s with
  | EmptyString => EmptyString
  | String c s' => String (upper_ascii c) (upper s')
  end.

(** [s.split(sep)] for a one-character separator: never the empty list. *)
Fixpoint split (sep : ascii) (s : string) : list string :=
  match s with
  | EmptyString => [EmptyString]
  | String c s' =>
      if Ascii.eqb c sep then EmptyString :: split sep s'
      else match split sep s' with
           | [] => [String c EmptyString]
           | w :: ws => String c w :: ws
           end
  end.

(** [s.startswith(p)] *)
Fixpoint startswith (p s : string) : bool :=
  match p, s with
  | EmptyString, _ => true
  | String a p', String b s' => Ascii.eqb a b && startswith p' s'
  | String _ _, EmptyString => false
  end.

(** [s[n:]] *)
Fixpoint drop (n : nat) (s : string) : string :=
  match n, s with
  | O, _ => s
  | S n', String _ s' => drop n' s'
  | S _, EmptyString => EmptyString
  end.

(** [s.replace(old, '', 1)]: the leftmost occurrence of [old] in [s] is
    cut out; [s] is returned as it is when [old] does not occur. *)
Fixpoint remove_first (old s : string) : string :=
  if startswith old s then drop (String.length old) s
  else match s with
       | EmptyString => EmptyString
       | String c s' => String c (remove_first old s')
       end.

(** [old in s] *)
Fixpoint contains (old s : string) : bool :=
  startswith old s ||
  match s with
  | EmptyString => false
  | String _ s' => contains old s'
  end.

(** ['{0}'.format(z)] for an [int] *)
Definition of_Z (z : Z) : string := NilZero.string_of_int (Z.to_int z).

End Str.

(* ===================================================================== *)
(** * Dictionaries *)
(* ===================================================================== *)

Section Dict.
Context {V : Type}.

Definition dict := list (string * V).

Definition keys (d : dict) : list string := map fst d.

(** Keys of a Python dictionary are pairwise distinct. *)
Definition dict_wf (d : dict) : Prop := NoDup (keys d).

Fixpoint dict_get (k : string) (d : dict) : option V :=
  match d with
  | [] => None
  | (k', v) :: d' => if String.eqb k k' then Some v else dict_get k d'
  end.

Definition dict_mem (k : string) (d : dict) : bool :=
  match dict_get k d with Some _ => true | None => false end.

(** [d[k] = v] *)
Fixpoint dict_set (k : string) (v : V) (d : dict) : dict :=
  match d with
  | [] => [(k, v)]
  | (k', v') :: d' =>
      if String.eqb k k' then (k', v) :: d' else (k', v') :: dict_set k v d'
  end.

(** [del d[k]], for a key that is present. *)
Fixpoint dict_del (k : string) (d : dict) : dict :=
  match d with
  | [] => []
  | (k', v') :: d' =>
      if String.eqb k k' then d' else (k', v') :: dict_del k d'
  end.

End Dict.

Arguments dict V : clear implicits.

(** Header mappings: a name and its list of values. *)
Definition headers := dict (list string).

(* ===================================================================== *)
(** * Header Transform *)
(* ===================================================================== *)

(** [key.split('-')[1]].  The index is in range wherever the source
    evaluates it ([split_proxy_connection]). *)
Definition second_segment (key : string) : string :=
  nth 1 (Str.split "-" key) EmptyString.

Definition transform_step (filtered_headers : headers)
    (item : string * list string) : headers :=
  let '(key, values) := item in
  if String.eqb (Str.lower key) "proxy-connection" then
    dict_set (second_segment key) values filtered_headers
  else if negb (String.eqb (Str.lower key) "proxy-authorization") then
    dict_set key values filtered_headers
  else filtered_headers.

Definition transform_proxy_headers (header_list : headers) : headers :=
  fold_left transform_step header_list [].

(** The transform as the specification words it: entry by entry, the name
    [connection] for a renamed entry. *)
Definition transform_as_specified (header_list : headers) : headers :=
  flat_map
    (fun item =>
       if String.eqb (Str.lower (fst item)) "proxy-connection"
       then [("connection", snd item)]
       else if String.eqb (Str.lower (fst item)) "proxy-authorization" then []
       else [item])
    header_list.

(** The entries that the source writes into [filtered_headers], in order:
    a renamed entry takes the second segment of its own name. *)
Definition transformed_items (header_list : headers) : headers :=
  flat_map
    (fun item =>
       if String.eqb (Str.lower (fst item)) "proxy-connection"
       then [(second_segment (fst item), snd item)]
       else if String.eqb (Str.lower (fst item)) "proxy-authorization" then []
       else [item])
    header_list.

Definition CRLF : string :=
  String (ascii_of_N 13) (String (ascii_of_N 10) EmptyString).

(** The header block assembled by [parse_headers]:
    [for key, values in transform_proxy_headers(header_list).items():
       for v in values: header_string += key + b":" + v + b"\r\n"] *)
Definition header_string (header_list : headers) : string :=
  fold_left
    (fun acc item =>
       fold_left (fun acc v => acc +:+ fst item +:+ ":" +:+ v +:+ CRLF)
                 (snd item) acc)
    (transform_proxy_headers header_list) "".

(** The lines of that block, as (name, value) pairs. *)
Definition header_lines (header_list : headers) : list (string * string) :=
  flat_map (fun item => map (fun v => (fst item, v)) (snd item))
           (transform_proxy_headers header_list).

Definition header_line (kv : string * string) : string :=
  fst kv +:+ ":" +:+ snd kv +:+ CRLF.

(** [vcr.stubs.compat] is not part of this module: its functions are taken
    as an interface. *)
Class Compat (HTTPMessage : Type) := {
  (** [compat.get_httpmessage(header_string)] *)
  get_httpmessage : string -> HTTPMessage;
  (** [compat.get_header(message, name)] *)
  get_header : HTTPMessage -> string -> option string;
  (** [compat.get_header_items(message)] *)
  get_header_items : HTTPMessage -> list (string * string);
  (** [compat.get_headers(message)] *)
  get_headers : HTTPMessage -> list (string * list string);
}.

Section Headers.
Context {HTTPMessage : Type} `{Compat HTTPMessage}.

Definition parse_headers (header_list : headers) : HTTPMessage :=
  get_httpmessage (header_string header_list).

(** [out.setdefault(key, []); out[key].extend(values)] *)
Definition setdefault_extend (out : headers) (item : string * list string)
    : headers :=
  match dict_get (fst item) out with
  | Some vs => dict_set (fst item) (vs ++ snd item) out
  | None => dict_set (fst item) ([] ++ snd item) out
  end.

(** [serialize_headers(response)], from the message of the live response. *)
Definition serialize_headers (response_msg : HTTPMessage) : headers :=
  transform_proxy_headers
    (fold_left setdefault_extend (get_headers response_msg) []).

End Headers.

(* ===================================================================== *)
(** * Values, exceptions and the monad of methods *)
(* ===================================================================== *)

Definition loc := nat.

(** Modelled from the spec: two header names of a Request are the same
    name when they differ in letter case only ("names case-insensitive for
    lookup"). *)
Definition same_name (k k' : string) : bool :=
  String.eqb (Str.lower k) (Str.lower k').

(** Modelled from the spec: the header mapping of a Request, "mapping from
    header-name to ordered list of values; names case-insensitive for
    lookup, case-preserving for storage".  The entries are kept in the
    order in which their names were first stored, each name in the spelling
    it was first stored with. *)
Definition HeadersDict := headers.


(** Modelled from the spec: [d[k] = v] on the header mapping of a Request.
    A name that the mapping has, in any letter case, keeps its place and
    its stored spelling and gets the new values; a new name is added at
    the end as it is spelled. *)
Fixpoint ci_set (k : string) (v : list string) (d : HeadersDict)
    : HeadersDict :=
  match d with
  | [] => [(k, v)]
  | (k', v') :: d' =>
      if same_name k k' then (k', v) :: d' else (k', v') :: ci_set k v d'
  end.

(** Modelled from the spec: [d.update(other)] on the header mapping of a
    Request: the items of [other] are stored one after the other. *)
Definition ci_update (d : HeadersDict) (other : headers) : HeadersDict :=
  fold_left (fun acc kv => ci_set (fst kv) (snd kv) acc) other d.

(** Modelled from the spec: the class [vcr.request.Request], which is not
    part of this module.  A Request has a method, an absolute URI, a body
    (absent, or raw bytes) and a header mapping, whose names are
    case-insensitive for lookup, and is mutable while it is accumulated. *)
Record Request := mkRequest {
  method : string;
  uri : string;
  body : option string;
  req_headers : HeadersDict;
}.

(** Modelled from the spec: [Request(method, uri, body, headers)].  The
    header mapping of the new Request is filled from the plain mapping it
    is given. *)
Definition new_Request (method uri : string) (body : option string)
    (headers : headers) : Request :=
  mkRequest method uri body (ci_update [] headers).

(** The recorded response record
    [{'status': {'code', 'message'}, 'headers', 'body': {'string'}}]. *)
Record RecordedResponse := mkRecorded {
  status_code : Z;
  status_message : string;
  rec_headers : headers;
  body_string : string;
}.

(** Values that are assigned to attributes of a connection. *)
Inductive PyVal :=
| VNone
| VBool (b : bool)
| VInt (z : Z)
| VStr (s : string)
| VRequest (r : Request)
| VFakeSocket
| VObject (id : nat).

(** Truth value of a Python object. *)
Definition truthy (v : PyVal) : bool :=
  match v with
  | VNone => false
  | VBool b => b
  | VInt z => negb (z =? 0)
  | VStr s => negb (String.eqb s "")
  | VRequest _ | VFakeSocket | VObject _ => true
  end.

(** What a collaborator (the real connection, the cassette) raises: an
    [AttributeError], or an exception of a class of its own. *)
Inductive Fault :=
| FaultAttributeError
| FaultOther (cls : string).

(** What a method of this module raises: its own exceptions, and those of
    a collaborator, which it passes on as they are. *)
Inductive Exc :=
| AttributeError
| AssertionError (msg : string)
| CannotOverwriteExistingCassetteException (msg : string)
| Passed (cls : string).

Definition exc_of_fault (f : Fault) : Exc :=
  match f with
  | FaultAttributeError => AttributeError
  | FaultOther cls => Passed cls
  end.

Inductive Res (E A : Type) :=
| Ok (a : A)
| Raise (e : E).
Arguments Ok {E A} a.
Arguments Raise {E A} e.

(** A method: from the state before to an outcome and the state after. *)
Definition M (S A : Type) : Type := S -> Res Exc A * S.

Definition ret {S A} (a : A) : M S A := fun s => (Ok a, s).
Definition raise {S A} (e : Exc) : M S A := fun s => (Raise e, s).
Definition bind {S A B} (m : M S A) (k : A -> M S B) : M S B :=
  fun s => match m s with
           | (Ok a, s') => k a s'
           | (Raise e, s') => (Raise e, s')
           end.
Definition gets {S A} (f : S -> A) : M S A := fun s => (Ok (f s), s).
Definition modify {S} (f : S -> S) : M S unit := fun s => (Ok tt, f s).

(** [try: m except AttributeError: pass] *)
Definition except_AttributeError_pass {S} (m : M S unit) : M S unit :=
  fun s => match m s with
           | (Raise AttributeError, s') => (Ok tt, s')
           | r => r
           end.

(** A computation that never raises the cannot-record fault. *)
Definition quiet {S A} (m : M S A) : Prop :=
  forall s msg s',
    m s <> (Raise (CannotOverwriteExistingCassetteException msg), s').

Declare Scope vcr_scope.
Delimit Scope vcr_scope with vcr.
Notation "x <- m ;; k" := (bind m (fun x => k))
  (at level 100, m at next level, right associativity) : vcr_scope.
Notation "m ;;; k" := (bind m (fun _ => k))
  (at level 100, right associativity) : vcr_scope.
Local Open Scope vcr_scope.

(* ===================================================================== *)
(** * Response Synthesizer *)
(* ===================================================================== *)

(** The records that recorded responses refer to. *)
Abbreviation Store := (gmap loc RecordedResponse).

(** [BytesIO(initial_bytes)]: a buffer and a read position. *)
Record BytesIO := mkBytesIO {
  buffer : string;
  position : nat;
}.

(** [s[:n]] *)
Fixpoint take (n : nat) (s : string) : string :=
  match n, s with
  | S n', String c s' => String c (take n' s')
  | _, _ => EmptyString
  end.

(** The prefix of [s] up to and including the first newline. *)
Fixpoint take_line (s : string) : string :=
  match s with
  | EmptyString => EmptyString
  | String c s' =>
      if Ascii.eqb c (ascii_of_N 10) then String c EmptyString
      else String c (take_line s')
  end.

(** The largest index of the interpreter ([sys.maxsize], 64 bits). *)
Definition PY_SSIZE_T_MAX : Z := 2 ^ 63 - 1.

(** The integers that fit an index. *)
Definition fits_index (n : Z) : bool :=
  (- PY_SSIZE_T_MAX - 1 <=? n) && (n <=? PY_SSIZE_T_MAX).

(** What [io.BytesIO] raises for a size that does not fit an index; the
    methods of the response pass it on as it is. *)
Definition OverflowError : Exc := Passed "OverflowError".

(** [io.read(size)]: all that remains when [size] is absent, [None] or
    negative, at most [size] octets otherwise.  The size is converted to an
    index first: one that does not fit raises [OverflowError], and nothing
    is read. *)
Definition BytesIO_read (size : option Z) (io : BytesIO)
    : Res Exc string * BytesIO :=
  let rest := Str.drop (position io) (buffer io) in
  match size with
  | None =>
      (Ok rest, mkBytesIO (buffer io) (position io + String.length rest))
  | Some n =>
      if negb (fits_index n) then (Raise OverflowError, io)
      else
        let chunk := if n <? 0 then rest else take (Z.to_nat n) rest in
        (Ok chunk, mkBytesIO (buffer io) (position io + String.length chunk))
  end.

(** [io.readline()] *)
Definition BytesIO_readline (io : BytesIO) : string * BytesIO :=
  let line := take_line (Str.drop (position io) (buffer io)) in
  (line, mkBytesIO (buffer io) (position io + String.length line)).

(** [[h for h in headers.keys() if h.upper() == 'TRANSFER-ENCODING']] *)
Definition te_key (hs : headers) : list string :=
  List.filter (fun h => String.eqb (Str.upper h) "TRANSFER-ENCODING") (keys hs).

(** A name that is transfer-encoding in some letter case. *)
Definition is_te (h : string) : bool :=
  String.eqb (Str.upper h) "TRANSFER-ENCODING".

(** [if te_key: del headers[te_key[0]]] *)
Definition del_te_key (hs : headers) : headers :=
  match te_key hs with
  | [] => hs
  | h :: _ => dict_del h hs
  end.

(** The record after [del headers[te_key[0]]]. *)
Definition strip (rr : RecordedResponse) : RecordedResponse :=
  mkRecorded (status_code rr) (status_message rr)
             (del_te_key (rec_headers rr)) (body_string rr).

Section Response.
Context {HTTPMessage : Type} `{Compat HTTPMessage}.

Record VCRHTTPResponse := mkResponse {
  recorded_response : loc;
  reason : string;
  status : Z;
  code : Z;
  version : PyVal;
  _content : BytesIO;
  _closed : bool;
  msg : HTTPMessage;
  resp_length : option string;   (* [self.length] *)
}.

(** A reference that Python holds is never dangling; a location without a
    record is reported as a [KeyError] of the store. *)
Definition deref (l : loc) : M Store RecordedResponse :=
  fun st => match st !! l with
            | Some rr => (Ok rr, st)
            | None => (Raise (Passed "KeyError"), st)
            end.

(** [x or None] *)
Definition or_None (x : option string) : option string :=
  match x with
  | Some s => if String.eqb s "" then None else Some s
  | None => None
  end.

(** [VCRHTTPResponse.__init__(self, recorded_response)].  [headers] is the
    mapping of the record itself, so the deletion is done on the record. *)
Definition VCRHTTPResponse_init (l : loc) : M Store VCRHTTPResponse :=
  rr <- deref l ;;
  let hs := del_te_key (rec_headers rr) in
  modify (fun st : Store =>
            <[l := mkRecorded (status_code rr) (status_message rr) hs
                              (body_string rr)]> st) ;;;
  let m := parse_headers hs in
  ret {| recorded_response := l;
         reason := status_message rr;
         status := status_code rr;
         code := status_code rr;
         version := VNone;
         _content := mkBytesIO (body_string rr) 0;
         _closed := false;
         msg := m;
         resp_length := or_None (get_header m "content-length") |}.

Definition set_content (io : BytesIO) (r : VCRHTTPResponse) : VCRHTTPResponse :=
  mkResponse (recorded_response r) (reason r) (status r) (code r)
             (version r) io
             (_closed r) (msg r) (resp_length r).

(** [read(self, *args)] *)
Definition VCRHTTPResponse_read (size : option Z) (r : VCRHTTPResponse)
    : Res Exc string * VCRHTTPResponse :=
  let '(chunk, io) := BytesIO_read size (_content r) in
  (chunk, set_content io r).

(** [readline(self)] *)
Definition VCRHTTPResponse_readline (r : VCRHTTPResponse)
    : string * VCRHTTPResponse :=
  let '(line, io) := BytesIO_readline (_content r) in
  (line, set_content io r).

(** [close(self)] *)
Definition VCRHTTPResponse_close (r : VCRHTTPResponse)
    : bool * VCRHTTPResponse :=
  (true, mkResponse (recorded_response r) (reason r) (status r) (code r)
                    (version r)
                    (_content r) true (msg r) (resp_length r)).

Definition getcode (r : VCRHTTPResponse) : Z := status r.
Definition isclosed (r : VCRHTTPResponse) : bool := _closed r.

(** [info(self)] *)
Definition info (r : VCRHTTPResponse) : M Store HTTPMessage :=
  rr <- deref (recorded_response r) ;;
  ret (parse_headers (rec_headers rr)).

(** [getheaders(self)] *)
Definition getheaders (r : VCRHTTPResponse) : M Store (list (string * string)) :=
  rr <- deref (recorded_response r) ;;
  ret (get_header_items (parse_headers (rec_headers rr))).

(** [', '.join(values)] *)
Fixpoint join_comma (values : list string) : string :=
  match values with
  | [] => ""
  | [v] => v
  | v :: vs => v +:+ ", " +:+ join_comma vs
  end.

(** [getheader(self, header, default)] *)
Definition getheader (header : string) (default : option string)
    (r : VCRHTTPResponse) : M Store (option string) :=
  items <- getheaders r ;;
  let values :=
    map snd (List.filter
               (fun kv => String.eqb (Str.lower (fst kv)) (Str.lower header))
               items) in
  match values with
  | [] => ret default
  | _ => ret (Some (join_comma values))
  end.

(** Reading in chunks of the given sizes, then to the end: the octets
    read, in order, or the exception of the first read that raises. *)
Fixpoint read_to_completion (sizes : list Z) (r : VCRHTTPResponse)
    : Res Exc string :=
  match sizes with
  | [] => fst (VCRHTTPResponse_read None r)
  | n :: sizes' =>
      match VCRHTTPResponse_read (Some n) r with
      | (Ok chunk, r') =>
          match read_to_completion sizes' r' with
          | Ok rest => Ok (chunk +:+ rest)
          | Raise e => Raise e
          end
      | (Raise e, _) => Raise e
      end
  end.

End Response.

Arguments VCRHTTPResponse : clear implicits.

(* ===================================================================== *)
(** * Collaborators of the Connection Proxy *)
(* ===================================================================== *)

Inductive Protocol := http | https.

Definition protocol_name (p : Protocol) : string :=
  match p with http => "http" | https => "https" end.

(** [{'https': 443, 'http': 80}[self._protocol]] *)
Definition default_port (p : Protocol) : Z :=
  match p with https => 443 | http => 80 end.

(** What the proxy takes from the response of the real connection. *)
Record LiveResponse (HTTPMessage : Type) := mkLive {
  live_status : Z;
  live_reason : string;
  live_msg : HTTPMessage;
  live_read : string;
}.
Arguments mkLive {HTTPMessage}.
Arguments live_status {HTTPMessage}.
Arguments live_reason {HTTPMessage}.
Arguments live_msg {HTTPMessage}.
Arguments live_read {HTTPMessage}.

(** The real connection ([HTTPConnection] or [HTTPSConnection] of the
    standard library): its state is [RC]; a method maps the state before to
    an outcome and the state after. *)
Class RealConnection (RC HTTPMessage : Type) := {
  _baseclass : list PyVal -> Res Fault RC;
  rc_host : RC -> string;
  rc_port : RC -> Z;
  rc_sock : RC -> PyVal;
  rc_setattr : string -> PyVal -> RC -> Res Fault unit * RC;
  rc_connect : RC -> Res Fault PyVal * RC;
  rc_request : string -> string -> option string -> headers -> RC
               -> Res Fault unit * RC;
  rc_getresponse : RC -> Res Fault (LiveResponse HTTPMessage) * RC;
  rc_close : RC -> Res Fault unit * RC;
  rc_set_tunnel : string -> option Z -> option headers -> RC
                  -> Res Fault unit * RC;
  rc_set_debuglevel : Z -> RC -> Res Fault unit * RC;
}.

(** Every use of the real connection by the proxy, in order. *)
Inductive RealCall :=
| Call_setattr (name : string) (value : PyVal)
| Call_connect
| Call_request (method url : string) (body : option string) (hs : headers)
| Call_getresponse
| Call_close
| Call_set_tunnel (host : string) (port : option Z) (hs : option headers)
| Call_set_debuglevel (level : Z).

(** The cassette ([vcr.cassette.Cassette]): the operations of it that the
    proxy calls.  It keeps references to the records it plays and is given
    a reference to the record it appends. *)
Class Cassette (C : Type) := {
  can_play_response_for : C -> Request -> bool;
  play_response : Request -> C -> Res Fault loc * C;
  append : Request -> loc -> C -> Res Fault unit * C;
  filter_request : C -> Request -> bool;
  write_protected : C -> bool;
  _path : C -> string;
  record_mode : C -> string;
}.

(** The process environment read when the module is loaded, and [repr]. *)
Class Runtime := {
  environ : dict string;
  repr_Request : Request -> string;
  repr_str : string -> string;
}.

(** [os.environ.get(key)] as a condition *)
Definition env_set (env : dict string) (key : string) : bool :=
  match dict_get key env with
  | Some v => negb (String.eqb v "")
  | None => false
  end.

(** The module-level loop over [('http_proxy', 'https_proxy')]. *)
Definition proxied_protocols (env : dict string) : list string :=
  flat_map
    (fun proxy_key =>
       if env_set env proxy_key || env_set env (Str.upper proxy_key)
       then [nth 0 (Str.split "_" proxy_key) EmptyString] else [])
    ["http_proxy"; "https_proxy"].

(* ===================================================================== *)
(** * Connection Proxy *)
(* ===================================================================== *)

Section Connection.
Context {RC C HTTPMessage : Type}.
Context `{RealConnection RC HTTPMessage} `{Cassette C} `{Compat HTTPMessage}.
Context `{Runtime}.

(** The instance attributes of a [VCRConnection], with the class attribute
    [_protocol] of its subclass.  [real_connection] and [_vcr_request] are
    absent until they are first assigned. *)
Record VCRConnection := mkConn {
  _protocol : Protocol;
  real_connection : option RC;
  _proxied : bool;
  _proxied_host : option string;
  _proxied_port : option Z;
  _vcr_request : option Request;
  attrs : dict PyVal;
}.

(** The proxy [self], the cassette patched into its class, the records, and
    the calls made on the real connection so far. *)
Record World := mkWorld {
  self : VCRConnection;
  cassette : C;
  store : Store;
  trace : list RealCall;
}.

Definition set_self (f : VCRConnection -> VCRConnection) (w : World) : World :=
  mkWorld (f (self w)) (cassette w) (store w) (trace w).

(** A method of [VCRHTTPResponse] run on the records of the world. *)
Definition on_store {A} (m : M Store A) : M World A :=
  fun w => let '(r, st) := m (store w) in
           (r, mkWorld (self w) (cassette w) st (trace w)).

(** A method of the cassette. *)
Definition on_cassette {A} (op : C -> Res Fault A * C) : M World A :=
  fun w => match op (cassette w) with
           | (Ok a, c) => (Ok a, mkWorld (self w) c (store w) (trace w))
           | (Raise f, c) =>
               (Raise (exc_of_fault f), mkWorld (self w) c (store w) (trace w))
           end.

Definition with_real (rc : RC) (s : VCRConnection) : VCRConnection :=
  mkConn (_protocol s) (Some rc) (_proxied s) (_proxied_host s)
         (_proxied_port s) (_vcr_request s) (attrs s).

(** [self.real_connection.<op>(...)]: an [AttributeError] while
    [real_connection] is absent; otherwise the call is made, and recorded
    in the trace. *)
Definition on_real {A} (call : RealCall) (op : RC -> Res Fault A * RC)
    : M World A :=
  fun w => match real_connection (self w) with
           | None => (Raise AttributeError, w)
           | Some rc =>
               let w' rc' := mkWorld (with_real rc' (self w)) (cassette w)
                                     (store w) (trace w ++ [call]) in
               match op rc with
               | (Ok a, rc') => (Ok a, w' rc')
               | (Raise f, rc') => (Raise (exc_of_fault f), w' rc')
               end
           end.

(** Reading [self.real_connection] and [self._vcr_request]. *)
Definition get_real_connection : M World RC :=
  fun w => match real_connection (self w) with
           | Some rc => (Ok rc, w)
           | None => (Raise AttributeError, w)
           end.

Definition get_vcr_request : M World Request :=
  fun w => match _vcr_request (self w) with
           | Some r => (Ok r, w)
           | None => (Raise AttributeError, w)
           end.

(** An assignment [self.<name> = <value>]. *)
Inductive Assign :=
| Set_real_connection (rc : RC)
| Set_proxied (b : bool)
| Set_proxied_host (h : option string)
| Set_proxied_port (p : option Z)
| Set_vcr_request (r : Request)
| Set_sock (v : PyVal)
| Set_attr (name : string) (v : PyVal).

Definition assign_name (a : Assign) : string :=
  match a with
  | Set_real_connection _ => "real_connection"
  | Set_proxied _ => "_proxied"
  | Set_proxied_host _ => "_proxied_host"
  | Set_proxied_port _ => "_proxied_port"
  | Set_vcr_request _ => "_vcr_request"
  | Set_sock _ => "sock"
  | Set_attr name _ => name
  end.

Definition assign_value (a : Assign) : PyVal :=
  match a with
  | Set_real_connection _ => VObject 0
  | Set_proxied b => VBool b
  | Set_proxied_host h => match h with Some s => VStr s | None => VNone end
  | Set_proxied_port p => match p with Some z => VInt z | None => VNone end
  | Set_vcr_request r => VRequest r
  | Set_sock v => v
  | Set_attr _ v => v
  end.

(** The setter of the [sock] property:
    [if self.real_connection.sock: self.real_connection.sock = value] *)
Definition sock_setter (value : PyVal) : M World unit :=
  rc <- get_real_connection ;;
  if truthy (rc_sock rc)
  then on_real (Call_setattr "sock" value) (rc_setattr "sock" value)
  else ret tt.

(** [super(VCRConnection, self).__setattr__(name, value)] *)
Definition object_setattr (a : Assign) : M World unit :=
  match a with
  | Set_real_connection rc => modify (set_self (with_real rc))
  | Set_proxied b =>
      modify (set_self (fun s =>
        mkConn (_protocol s) (real_connection s) b (_proxied_host s)
               (_proxied_port s) (_vcr_request s) (attrs s)))
  | Set_proxied_host h =>
      modify (set_self (fun s =>
        mkConn (_protocol s) (real_connection s) (_proxied s) h
               (_proxied_port s) (_vcr_request s) (attrs s)))
  | Set_proxied_port p =>
      modify (set_self (fun s =>
        mkConn (_protocol s) (real_connection s) (_proxied s) (_proxied_host s)
               p (_vcr_request s) (attrs s)))
  | Set_vcr_request r =>
      modify (set_self (fun s =>
        mkConn (_protocol s) (real_connection s) (_proxied s) (_proxied_host s)
               (_proxied_port s) (Some r) (attrs s)))
  | Set_sock v => sock_setter v
  | Set_attr name v =>
      modify (set_self (fun s =>
        mkConn (_protocol s) (real_connection s) (_proxied s) (_proxied_host s)
               (_proxied_port s) (_vcr_request s) (dict_set name v (attrs s))))
  end.

(** [VCRConnection.__setattr__(self, name, value)] *)
Definition VCRConnection_setattr (a : Assign) : M World unit :=
  except_AttributeError_pass
    (on_real (Call_setattr (assign_name a) (assign_value a))
             (rc_setattr (assign_name a) (assign_value a))) ;;;
  object_setattr a.

(** ['{0}'.format(port)] *)
Definition format_port (port : option Z) : string :=
  match port with Some z => Str.of_Z z | None => "None" end.

(** ['{0}'.format(host)] *)
Definition format_host (host : option string) : string :=
  match host with Some h => h | None => "None" end.

(** [port != default_port] *)
Definition port_differs (port : option Z) (default : Z) : bool :=
  match port with Some z => negb (z =? default) | None => true end.

Definition _port_postfix : M World string :=
  s <- gets self ;;
  let default := default_port (_protocol s) in
  port <- (if _proxied s then ret (_proxied_port s)
           else rc <- get_real_connection ;; ret (Some (rc_port rc))) ;;
  ret (if port_differs port default then ":" +:+ format_port port else "").

(** [not self._proxied_host] *)
Definition no_host (host : option string) : bool :=
  match host with Some h => String.eqb h "" | None => true end.

Definition _uri (url : string) : M World string :=
  s <- gets self ;;
  if _proxied s && no_host (_proxied_host s) then
    match _protocol s with
    | http => ret url
    | https =>
        raise (AssertionError
                 "we should be proxied, but the client never called set_tunnel")
    end
  else
    host <- (if _proxied s then ret (format_host (_proxied_host s))
             else rc <- get_real_connection ;; ret (rc_host rc)) ;;
    postfix <- _port_postfix ;;
    ret (protocol_name (_protocol s) +:+ "://" +:+ host +:+ postfix +:+ url).

Definition _url (uri : string) : M World string :=
  s <- gets self ;;
  rc <- get_real_connection ;;
  postfix <- _port_postfix ;;
  let prefix := protocol_name (_protocol s) +:+ "://" +:+ rc_host rc
                +:+ postfix in
  ret (Str.remove_first prefix uri).

(** [headers or {}] *)
Definition or_empty (hs : option headers) : headers :=
  match hs with Some (item :: rest) => item :: rest | _ => [] end.

Definition request (method url : string) (body : option string)
    (hs : option headers) : M World unit :=
  u <- _uri url ;;
  VCRConnection_setattr
    (Set_vcr_request
       (new_Request method u body (transform_proxy_headers (or_empty hs)))).

Definition putrequest (method url : string) : M World unit :=
  u <- _uri url ;;
  VCRConnection_setattr (Set_vcr_request (new_Request method u (Some "") [])).

(** An update of the [Request] object that [self._vcr_request] refers to:
    the object is changed in place, no attribute of the proxy is assigned. *)
Definition update_vcr_request (f : Request -> Request) : M World unit :=
  r <- get_vcr_request ;;
  modify (set_self (fun s =>
    mkConn (_protocol s) (real_connection s) (_proxied s) (_proxied_host s)
           (_proxied_port s) (Some (f r)) (attrs s))).

(** [self._vcr_request.headers.update(transform_proxy_headers({header: values}))]:
    the update is that of the header mapping of the Request. *)
Definition putheader (header : string) (values : list string) : M World unit :=
  update_vcr_request (fun r =>
    mkRequest (method r) (uri r) (body r)
      (ci_update (req_headers r)
                 (transform_proxy_headers [(header, values)]))).

(** [body + data if body else data] *)
Definition append_data (body : option string) (data : string) : string :=
  match body with
  | Some b => if String.eqb b "" then data else b +:+ data
  | None => data
  end.

Definition send (data : string) : M World unit :=
  update_vcr_request (fun r =>
    mkRequest (method r) (uri r) (Some (append_data (body r) data))
              (req_headers r)).

Definition close : M World unit := on_real Call_close rc_close.

Definition endheaders (message_body : option string) : M World unit :=
  match message_body with
  | Some b =>
      update_vcr_request (fun r =>
        mkRequest (method r) (uri r) (Some b) (req_headers r))
  | None => ret tt
  end.

(** The message of the cannot-record fault:
    ["No match for the request (%r) was found. Can't overwrite existing
      cassette (%r) in your current record mode (%r)."
     % (self._vcr_request, self.cassette._path, self.cassette.record_mode)] *)
Definition cannot_overwrite_message (r : Request) (c : C) : string :=
  "No match for the request (" +:+ repr_Request r +:+ ") was found. "
  +:+ "Can't overwrite existing cassette (" +:+ repr_str (_path c) +:+ ") in "
  +:+ "your current record mode (" +:+ repr_str (record_mode c) +:+ ").".

(** A new record, for the dictionary literal built from the live response. *)
Definition alloc (rr : RecordedResponse) : M World loc :=
  fun w => let l := fresh (dom (store w)) in
           (Ok l, mkWorld (self w) (cassette w) (<[l := rr]> (store w))
                          (trace w)).

Definition getresponse : M World (VCRHTTPResponse HTTPMessage) :=
  r <- get_vcr_request ;;
  c <- gets cassette ;;
  if can_play_response_for c r then
    response <- on_cassette (play_response r) ;;
    on_store (VCRHTTPResponse_init response)
  else
    (if write_protected c && filter_request c r
     then raise (CannotOverwriteExistingCassetteException
                   (cannot_overwrite_message r c))
     else ret tt) ;;;
    url <- _url (uri r) ;;
    on_real (Call_request (method r) url (body r) (req_headers r))
            (rc_request (method r) url (body r) (req_headers r)) ;;;
    response <- on_real Call_getresponse rc_getresponse ;;
    s <- gets self ;;
    (if _proxied s then VCRConnection_setattr (Set_attr "auto_open" (VInt 0))
     else ret tt) ;;;
    response <- alloc (mkRecorded (live_status response) (live_reason response)
                                  (serialize_headers (live_msg response))
                                  (live_read response)) ;;
    r' <- get_vcr_request ;;
    on_cassette (append r' response) ;;;
    on_store (VCRHTTPResponse_init response).

Definition set_debuglevel (level : Z) : M World unit :=
  on_real (Call_set_debuglevel level) (rc_set_debuglevel level).

(** [hasattr(self, '_vcr_request') and
     self.cassette.can_play_response_for(self._vcr_request)] *)
Definition has_playable_request (s : VCRConnection) (c : C) : bool :=
  match _vcr_request s with
  | Some r => can_play_response_for c r
  | None => false
  end.

Definition connect : M World PyVal :=
  s <- gets self ;;
  c <- gets cassette ;;
  if has_playable_request s c then ret VNone
  else if write_protected c then ret VNone
  else on_real Call_connect rc_connect.

(** The getter of the [sock] property. *)
Definition sock : M World PyVal :=
  rc <- get_real_connection ;;
  s <- gets self ;;
  if truthy (rc_sock rc) then ret (rc_sock rc)
  else if _proxied s then ret VNone
  else ret VFakeSocket.

(** An object of the class for [protocol] before [__init__] has run. *)
Definition new_object (protocol : Protocol) : VCRConnection :=
  mkConn protocol None false None None None [].

(** [__init__(self, *args, **kwargs)] *)
Definition VCRConnection_init (args : list PyVal) : M World unit :=
  match _baseclass args with
  | Raise f => raise (exc_of_fault f)
  | Ok rc =>
      VCRConnection_setattr (Set_real_connection rc) ;;;
      s <- gets self ;;
      VCRConnection_setattr
        (Set_proxied (existsb (String.eqb (protocol_name (_protocol s)))
                              (proxied_protocols environ))) ;;;
      VCRConnection_setattr (Set_proxied_host None) ;;;
      VCRConnection_setattr (Set_proxied_port None)
  end.

(** [port or {'https': 443, 'http': 80}[self._protocol]] *)
Definition port_or_default (port : option Z) (protocol : Protocol) : Z :=
  match port with
  | Some z => if z =? 0 then default_port protocol else z
  | None => default_port protocol
  end.

Definition set_tunnel (host : string) (port : option Z)
    (hs : option headers) : M World unit :=
  s <- gets self ;;
  (if _proxied s then ret tt
   else raise (AssertionError
     "set_tunnel was called without the https_proxy env var being set")) ;;;
  VCRConnection_setattr (Set_proxied_host (Some host)) ;;;
  s <- gets self ;;
  VCRConnection_setattr
    (Set_proxied_port (Some (port_or_default port (_protocol s)))) ;;;
  on_real (Call_set_tunnel host port hs) (rc_set_tunnel host port hs).

(** ** Notions used to state the properties *)

(** The world after a call on the real connection that left it as [rc']. *)
Definition after_real (w : World) (call : RealCall) (rc' : RC) : World :=
  mkWorld (with_real rc' (self w)) (cassette w) (store w) (trace w ++ [call]).

(** The Request in progress, when there is one. *)
Definition request_headers (w : World) : option headers :=
  option_map req_headers (_vcr_request (self w)).

(** The port suffix of [_port_postfix], from the tunnel port of a
    proxy-aware connection and from the port of the real connection
    otherwise. *)
Definition postfix_of (s : VCRConnection) (rc : RC) : string :=
  let port := if _proxied s then _proxied_port s else Some (rc_port rc) in
  if port_differs port (default_port (_protocol s))
  then ":" +:+ format_port port else "".

(** The prefix that [_url] removes. *)
Definition url_prefix (s : VCRConnection) (rc : RC) : string :=
  protocol_name (_protocol s) +:+ "://" +:+ rc_host rc +:+ postfix_of s rc.

(** The attributes that a call on the real connection leaves alone. *)
Definition same_bookkeeping (s s' : VCRConnection) : Prop :=
  _protocol s' = _protocol s /\ _proxied s' = _proxied s
  /\ _proxied_host s' = _proxied_host s /\ _proxied_port s' = _proxied_port s
  /\ _vcr_request s' = _vcr_request s.

(** The port suffix of a tunnel to [port]. *)
Definition tunnel_postfix (protocol : Protocol) (port : Z) : string :=
  if port =? default_port protocol then "" else ":" +:+ Str.of_Z port.

End Connection.

(* ===================================================================== *)
(** * Doubles of the collaborators, to run the proxy on concrete inputs *)
(* ===================================================================== *)

Module Double.

(** A message kept as the header block it was built from. *)
#[global] Instance raw_compat : Compat string := {|
  get_httpmessage := fun block => block;
  get_header := fun _ _ => None;
  get_header_items := fun _ => [];
  get_headers := fun _ => [];
|}.

(** A real connection that keeps the attributes it is given; it has a
    read-only attribute and one that validates its value. *)
Record conn := mkDouble {
  d_host : string;
  d_port : Z;
  d_attrs : dict PyVal;
}.

Definition d_setattr (name : string) (v : PyVal) (c : conn)
    : Res Fault unit * conn :=
  if String.eqb name "read_only" then (Raise FaultAttributeError, c)
  else if String.eqb name "validated" then (Raise (FaultOther "ValueError"), c)
  else (Ok tt, mkDouble (d_host c) (d_port c) (dict_set name v (d_attrs c))).

Definition d_response : LiveResponse string :=
  mkLive 200 "OK" "" "live".

#[global] Instance double_connection : RealConnection conn string := {|
  _baseclass := fun _ => Ok (mkDouble "api.test" 443 []);
  rc_host := d_host;
  rc_port := d_port;
  rc_sock := fun _ => VNone;
  rc_setattr := d_setattr;
  rc_connect := fun c => (Ok VNone, c);
  rc_request := fun _ _ _ _ c => (Ok tt, c);
  rc_getresponse := fun c => (Ok d_response, c);
  rc_close := fun c => (Ok tt, c);
  rc_set_tunnel := fun _ _ _ c => (Ok tt, c);
  rc_set_debuglevel := fun _ c => (Ok tt, c);
|}.

(** A cassette that matches on method and URI. *)
Record tape := mkTape {
  t_data : list (string * string * loc);
  t_write_protected : bool;
  t_path : string;
  t_record_mode : string;
}.

Definition t_matches (r : Request) (entry : string * string * loc) : bool :=
  String.eqb (fst (fst entry)) (method r) && String.eqb (snd (fst entry)) (uri r).

Definition t_find (r : Request) (c : tape) : option loc :=
  match List.filter (t_matches r) (t_data c) with
  | entry :: _ => Some (snd entry)
  | [] => None
  end.

#[global] Instance double_cassette : Cassette tape := {|
  can_play_response_for := fun c r =>
    match t_find r c with Some _ => true | None => false end;
  play_response := fun r c =>
    match t_find r c with
    | Some l => (Ok l, c)
    | None => (Raise (FaultOther "UnhandledHTTPRequestError"), c)
    end;
  append := fun r l c =>
    (Ok tt, mkTape (t_data c ++ [(method r, uri r, l)]) (t_write_protected c)
                   (t_path c) (t_record_mode c));
  filter_request := fun _ _ => true;
  write_protected := t_write_protected;
  _path := t_path;
  record_mode := t_record_mode;
|}.

#[global] Instance double_runtime : Runtime := {|
  environ := [("HTTPS_PROXY", "http://proxy.test:3128")];
  repr_Request := fun r => "<Request (" +:+ method r +:+ ") " +:+ uri r +:+ ">";
  repr_str := fun s => "'" +:+ s +:+ "'";
|}.

Definition blank_tape (write_protected : bool) : tape :=
  mkTape [] write_protected "fixtures/widgets.yaml"
         (if write_protected then "none" else "new_episodes").

(** A plain https connection to api.test on the default port. *)
Definition direct : VCRConnection :=
  mkConn https (Some (mkDouble "api.test" 443 [])) false None None None [].

(** An https connection through the proxy proxy.test:3128. *)
Definition proxied : VCRConnection :=
  mkConn https (Some (mkDouble "proxy.test" 3128 [])) true None None None [].

Definition world_of (s : VCRConnection) (c : tape) (st : Store)
    : World (RC := conn) (C := tape) :=
  mkWorld s c st [].

End Double.

(** Inputs on which the properties are run. *)
Module Samples.
Import Double.

Definition proxy_sample : headers :=
  [("Proxy-Connection", ["keep-alive"]); ("Proxy-Authorization", ["Basic x"]);
   ("Accept", ["text/html"; "*/*"])].

(** A record whose headers spell transfer-encoding in two ways. *)
Definition twice_chunked : RecordedResponse :=
  mkRecorded 200 "OK"
    [("Transfer-Encoding", ["chunked"]); ("transfer-encoding", ["chunked"])]
    "hello".

(** A record with one transfer-encoding header. *)
Definition once_chunked : RecordedResponse :=
  mkRecorded 200 "OK"
    [("Transfer-Encoding", ["chunked"]); ("Content-Length", ["5"])] "hello".


Definition widgets : RecordedResponse :=
  mkRecorded 200 "OK" [("Content-Type", ["application/json"])] "[1, 2]".

Definition get_widgets : Request :=
  mkRequest "GET" "https://api.test/widgets" None [].

(** A connection with the Request [get_widgets] in progress. *)
Definition asking : VCRConnection :=
  mkConn https (Some (mkDouble "api.test" 443 [])) false None None
         (Some get_widgets) [].

(** A cassette that has a recording for [get_widgets], and one that has
    none and must not be written. *)
Definition recorded_tape : tape :=
  mkTape [("GET", "https://api.test/widgets", 0%nat)] false
         "fixtures/widgets.yaml" "once".

Definition replaying : World := world_of asking recorded_tape {[ 0%nat := widgets ]}.
Definition refusing : World := world_of asking (blank_tape true) ∅.
Definition fresh_direct : World := world_of direct (blank_tape false) ∅.
Definition fresh_proxied : World := world_of proxied (blank_tape false) ∅.

(** A connection whose Request already has the headers [Accept] and
    [Host]. *)
Definition accepting : World :=
  world_of (mkConn https (Some (mkDouble "api.test" 443 [])) false None None
                   (Some (mkRequest "GET" "https://api.test/widgets" (Some "")
                                    [("Accept", ["text/html"]);
                                     ("Host", ["api.test"])])) [])
           (blank_tape false) ∅.

End Samples.

(* ===================================================================== *)
(** * Notions for the further properties *)
(* ===================================================================== *)

(** A name that the Header Transform does not let through as it is. *)
Definition proxy_name (k : string) : bool :=
  String.eqb (Str.lower k) "proxy-connection"
  || String.eqb (Str.lower k) "proxy-authorization".

(** A header mapping with distinct names, none of them a proxy name. *)
Definition proxy_free (hs : headers) : Prop :=
  dict_wf hs /\ forall k, k ∈ keys hs -> proxy_name k = false.

(** The values that the items of a message give for the name [k], in
    order, and whether any item has that name. *)
Definition values_of (k : string) (items : list (string * list string))
    : list string :=
  flat_map (fun item => if String.eqb (fst item) k then snd item else []) items.

Definition mentions (k : string) (items : list (string * list string)) : bool :=
  existsb (fun item => String.eqb (fst item) k) items.

(** The chunks in a row. *)
Fixpoint concat_chunks (chunks : list string) : string :=
  match chunks with
  | [] => ""
  | data :: rest => data +:+ concat_chunks rest
  end.

Section ConnDefs.
Context {RC C HTTPMessage : Type}.
Context `{RealConnection RC HTTPMessage} `{Cassette C} `{Compat HTTPMessage}.
Context `{Runtime}.

(** [send] for each chunk in turn. *)
Fixpoint send_all (chunks : list string) : M (World (RC := RC) (C := C)) unit :=
  match chunks with
  | [] => ret tt
  | data :: rest => send data ;;; send_all rest
  end.

(** The calls by which a client fills in a Request that it has begun. *)
Inductive Fill :=
| Fill_putheader (header : string) (values : list string)
| Fill_send (data : string)
| Fill_endheaders (message_body : option string).

Definition fill (op : Fill) : M (World (RC := RC) (C := C)) unit :=
  match op with
  | Fill_putheader header values => putheader header values
  | Fill_send data => send data
  | Fill_endheaders message_body => endheaders message_body
  end.

Fixpoint fill_all (ops : list Fill) : M (World (RC := RC) (C := C)) unit :=
  match ops with
  | [] => ret tt
  | op :: rest => fill op ;;; fill_all rest
  end.

(** The Request of [w] with another body. *)
Definition with_body (b : option string) (r : Request) : Request :=
  mkRequest (method r) (uri r) b (req_headers r).

(** The proxy of [w] with another Request in progress. *)
Definition with_request (r : Request) (w : World (RC := RC) (C := C))
    : World (RC := RC) (C := C) :=
  set_self (fun s =>
    mkConn (_protocol s) (real_connection s) (_proxied s) (_proxied_host s)
           (_proxied_port s) (Some r) (attrs s)) w.

(** An assignment that ends in the proxy's own attributes. *)
Definition plain (a : Assign (RC := RC)) : bool :=
  match a with
  | Set_real_connection _ | Set_sock _ => false
  | _ => true
  end.

End ConnDefs.

(** A real connection on which one operation, named in [f_fails], raises. *)
Module Flaky.

Record conn := mkFlaky {
  f_host : string;
  f_port : Z;
  f_fails : string;
}.

Definition unless (name : string) {A} (a : A) (c : conn) : Res Fault A * conn :=
  if String.eqb (f_fails c) name then (Raise (FaultOther "OSError"), c)
  else (Ok a, c).

#[global] Instance flaky_connection : RealConnection conn string := {|
  _baseclass := fun _ => Raise (FaultOther "OSError");
  rc_host := f_host;
  rc_port := f_port;
  rc_sock := fun _ => VNone;
  rc_setattr := fun name _ => unless name tt;
  rc_connect := unless "connect" VNone;
  rc_request := fun _ _ _ _ => unless "request" tt;
  rc_getresponse := unless "getresponse" Double.d_response;
  rc_close := unless "close" tt;
  rc_set_tunnel := fun _ _ _ => unless "set_tunnel" tt;
  rc_set_debuglevel := fun _ => unless "set_debuglevel" tt;
|}.

Definition world_of (fails : string) (proxied : bool)
    : World (RC := conn) (C := Double.tape) :=
  mkWorld (mkConn https (Some (mkFlaky "api.test" 443 fails)) proxied
                  (if proxied then Some "example.com" else None)
                  (if proxied then Some 443 else None)
                  (Some Samples.get_widgets) [])
          (Double.blank_tape false) ∅ [].

End Flaky.

Module Cases.
Import Double.

(** The connection of [Samples.asking] before anything is recorded. *)
Definition recording : World := world_of Samples.asking (blank_tape false) ∅.

(** The same through a tunnel to example.com. *)
Definition recording_proxied : World :=
  world_of (mkConn https (Some (mkDouble "proxy.test" 3128 [])) true
                   (Some "example.com") (Some 443)
                   (Some (mkRequest "GET" "https://example.com/widgets" None []))
                   [])
           (blank_tape false) ∅.

(** The cassette after the exchange for [Samples.get_widgets] has been
    appended under the record 0. *)
Definition recorded_once (r : Request) : tape :=
  mkTape [(method r, uri r, 0%nat)] false "fixtures/widgets.yaml" "new_episodes".

(** An http connection through a proxy, which needs no tunnel. *)
Definition http_proxied : World :=
  world_of (mkConn http (Some (mkDouble "proxy.test" 3128 [])) true None None
                   None [])
           (blank_tape false) ∅.

(** An object of the https class before [__init__]. *)
Definition unborn : World := world_of (new_object https) (blank_tape false) ∅.

Definition unborn_flaky : World (RC := Flaky.conn) (C := tape) :=
  mkWorld (new_object https) (blank_tape false) ∅ [].

(** A response over the body [hello], not yet read. *)
Definition hello : VCRHTTPResponse string :=
  mkResponse 0%nat "OK" 200 200 VNone (mkBytesIO "hello" 0) false "" None.

Definition plain_headers : headers :=
  [("Accept", ["text/html"]); ("Connection", ["close"])].

End Cases.

(* ===================================================================== *)
(** * Properties of strings and dictionaries *)
(* ===================================================================== *)

Lemma lower_ascii_dash (c : ascii) :
  Ascii.eqb (Str.lower_ascii c) "-" = Ascii.eqb c "-".
Proof. destruct c as [[] [] [] [] [] [] [] []]; reflexivity. Qed.



(** Splitting at dashes commutes with lowering the case. *)
Lemma split_lower (s : string) :
  Str.split "-" (Str.lower s) = map Str.lower (Str.split "-" s).
Proof.
  induction s as [|c s IH]; simpl; [reflexivity|].
  rewrite lower_ascii_dash.
  destruct (Ascii.eqb c "-"); simpl; [now rewrite IH|].
  rewrite IH. now destruct (Str.split "-" s).
Qed.

Lemma split_one (sep : ascii) (s b : string) :
  Str.split sep s = [b] -> s = b.
Proof.
  revert b; induction s as [|c s IH]; simpl; intros b Hs.
  - congruence.
  - destruct (Ascii.eqb c sep).
    + destruct s; simpl in Hs; [discriminate|].
      destruct (Ascii.eqb _ _); [discriminate|].
      destruct (Str.split sep s); discriminate.
    + destruct (Str.split sep s) as [|w ws] eqn:E.
      * destruct s; simpl in E; [discriminate|].
        destruct (Ascii.eqb _ _); [discriminate|].
        destruct (Str.split sep s); discriminate.
      * injection Hs as <- ->. now rewrite (IH w).
Qed.

Lemma split_two (sep : ascii) (s a b : string) :
  Str.split sep s = [a; b] -> s = a +:+ String sep b.
Proof.
  revert a; induction s as [|c s IH]; simpl; intros a Hs.
  - discriminate.
  - destruct (Ascii.eqb c sep) eqn:Ec.
    + apply Ascii.eqb_eq in Ec. subst c.
      injection Hs as <- Hs. apply split_one in Hs. now subst.
    + destruct (Str.split sep s) as [|w ws]; [discriminate|].
      injection Hs as <- ->. simpl. now rewrite (IH w).
Qed.

(** Where the source evaluates [key.split('-')[1]], the key has exactly two
    segments: the index is in range, and the segment taken is the name
    [connection] in the letter case of the key. *)
Lemma split_proxy_connection (key : string) :
  Str.lower key = "proxy-connection" ->
  exists a, Str.split "-" key = [a; second_segment key]
            /\ key = a +:+ "-" +:+ second_segment key
            /\ Str.lower a = "proxy"
            /\ Str.lower (second_segment key) = "connection".
Proof.
  intros Hk. pose proof (split_lower key) as Hs. rewrite Hk in Hs.
  change (Str.split "-" "proxy-connection") with ["proxy"; "connection"] in Hs.
  unfold second_segment.
  destruct (Str.split "-" key) as [|a [|b [|? ?]]] eqn:E; try discriminate.
  injection Hs as Ha Hb. exists a. simpl.
  split; [reflexivity|]. split; [now apply split_two|]. now split.
Qed.

Section DictFacts.
Context {V : Type}.
Implicit Types (d : dict V) (k : string) (v : V).

Lemma dict_set_fresh k v d :
  k ∉ keys d -> dict_set k v d = d ++ [(k, v)].
Proof.
  induction d as [|[k' v'] d IH]; simpl; intros Hk; [reflexivity|].
  apply not_elem_of_cons in Hk as [Hne Hk].
  destruct (String.eqb_spec k k'); [contradiction|].
  now rewrite IH.
Qed.

Lemma keys_dict_set_present k v d :
  k ∈ keys d -> keys (dict_set k v d) = keys d.
Proof.
  induction d as [|[k' v'] d IH]; simpl; intros Hk.
  - now apply elem_of_nil in Hk.
  - destruct (String.eqb_spec k k') as [->|Hne]; simpl; [reflexivity|].
    f_equal. apply IH. apply elem_of_cons in Hk as [Hk|Hk]; [congruence|exact Hk].
Qed.

Lemma dict_get_set_eq k v d : dict_get k (dict_set k v d) = Some v.
Proof.
  induction d as [|[k' v'] d IH]; simpl.
  - now rewrite String.eqb_refl.
  - destruct (String.eqb_spec k k') as [->|Hne]; simpl.
    + now rewrite String.eqb_refl.
    + destruct (String.eqb_spec k k'); [contradiction|exact IH].
Qed.

Lemma dict_get_set_ne k k' v d :
  k' <> k -> dict_get k' (dict_set k v d) = dict_get k' d.
Proof.
  intros Hne. induction d as [|[k0 v0] d IH]; simpl.
  - destruct (String.eqb_spec k' k); [contradiction|reflexivity].
  - destruct (String.eqb_spec k k0) as [->|Hk]; simpl.
    + destruct (String.eqb_spec k' k0); [contradiction|reflexivity].
    + destruct (String.eqb_spec k' k0); [reflexivity|exact IH].
Qed.

End DictFacts.

(** ** The header mapping of a Request *)


Lemma same_name_false (k k' : string) :
  same_name k k' = false <-> Str.lower k <> Str.lower k'.
Proof. unfold same_name. apply String.eqb_neq. Qed.


(** Storing under a name that the mapping does not have, in any letter
    case: a new entry at the end. *)
Lemma ci_set_fresh (k : string) (v : list string) (d : HeadersDict) :
  Str.lower k ∉ map Str.lower (keys d) -> ci_set k v d = d ++ [(k, v)].
Proof.
  induction d as [|[k' v'] d IH]; cbn [keys map fst]; intros Hin;
    [reflexivity|].
  apply not_elem_of_cons in Hin as [Hne Hin]. cbn [ci_set].
  apply same_name_false in Hne. rewrite Hne. cbn [app]. f_equal.
  now apply IH.
Qed.



Lemma keys_ci_set (k x : string) (v : list string) (d : HeadersDict) :
  x ∈ keys (ci_set k v d) -> x = k \/ x ∈ keys d.
Proof.
  induction d as [|[k' v'] d IH]; cbn [ci_set keys map fst].
  - intros Hx. apply elem_of_cons in Hx as [->|Hx]; [now left|].
    now apply elem_of_nil in Hx.
  - destruct (same_name k k'); cbn [map fst]; intros Hx.
    + now right.
    + apply elem_of_cons in Hx as [->|Hx].
      * right. apply elem_of_cons. now left.
      * destruct (IH Hx) as [->|Hin]; [now left|].
        right. apply elem_of_cons. now right.
Qed.

Lemma ci_set_wf (k : string) (v : list string) (d : HeadersDict) :
  dict_wf d -> dict_wf (ci_set k v d).
Proof.
  unfold dict_wf. induction d as [|[k' v'] d IH]; cbn [ci_set keys map fst].
  - intros _. apply NoDup_cons. split; [apply not_elem_of_nil|].
    apply NoDup_nil; exact I.
  - intros Hwf. apply NoDup_cons in Hwf as [Hnotin Hwf].
    destruct (same_name k k') eqn:E; cbn [map fst].
    + apply NoDup_cons. now split.
    + apply NoDup_cons. split; [|now apply IH].
      intros Hin. apply keys_ci_set in Hin as [->|Hin]; [|now apply Hnotin].
      apply same_name_false in E. now apply E.
Qed.


(* ===================================================================== *)
(** * Header Transform: what it returns *)
(* ===================================================================== *)

Lemma transform_fold (header_list acc : headers) :
  NoDup (keys (acc ++ transformed_items header_list)) ->
  fold_left transform_step header_list acc
  = acc ++ transformed_items header_list.
Proof.
  revert acc. induction header_list as [|[key values] hs IH]; intros acc Hnd.
  - simpl. now rewrite app_nil_r.
  - cbn [fold_left transformed_items flat_map transform_step fst snd] in *.
    fold (transformed_items hs) in *.
    destruct (String.eqb (Str.lower key) "proxy-connection").
    + cbn [app] in *.
      rewrite dict_set_fresh.
      * rewrite IH; rewrite <- app_assoc; [reflexivity|exact Hnd].
      * unfold keys in Hnd. rewrite map_app in Hnd.
        apply NoDup_app in Hnd as (_ & Hd & _).
        intros Hin. apply (Hd _ Hin). simpl. apply elem_of_cons. now left.
    + destruct (String.eqb (Str.lower key) "proxy-authorization");
        cbn [negb app] in *.
      * now apply IH.
      * rewrite dict_set_fresh.
        -- rewrite IH; rewrite <- app_assoc; [reflexivity|exact Hnd].
        -- unfold keys in Hnd. rewrite map_app in Hnd.
           apply NoDup_app in Hnd as (_ & Hd & _).
           intros Hin. apply (Hd _ Hin). simpl. apply elem_of_cons. now left.
Qed.

(** C4 (as amended).  When the names that result are pairwise distinct, the
    Header Transform returns, in the order of its input: each entry named
    proxy-connection (in any letter case) under the second segment of its
    own name, which is [connection] in the letter case of the entry; no
    entry named proxy-authorization; every other entry as it is.  The
    input mapping is a value that the function only reads. *)
Theorem transform_proxy_headers_items (header_list : headers) :
  NoDup (keys (transformed_items header_list)) ->
  transform_proxy_headers header_list = transformed_items header_list
  /\ forall key values,
       (key, values) ∈ header_list ->
       Str.lower key = "proxy-connection" ->
       Str.lower (second_segment key) = "connection"
       /\ exists a, key = a +:+ "-" +:+ second_segment key.
Proof.
  intros Hnd. split.
  - unfold transform_proxy_headers. now rewrite transform_fold.
  - intros key values _ Hk.
    destruct (split_proxy_connection key Hk) as (a & _ & Hkey & _ & Hb).
    split; [exact Hb|]. now exists a.
Qed.

Lemma transform_proxy_headers_items_witness :
  NoDup (keys (transformed_items Samples.proxy_sample))
  /\ transform_proxy_headers Samples.proxy_sample
     = [("Connection", ["keep-alive"]); ("Accept", ["text/html"; "*/*"])]
  /\ Str.lower (second_segment "Proxy-Connection") = "connection".
Proof.
  assert (Hnd : NoDup (keys (transformed_items Samples.proxy_sample))).
  { apply (bool_decide_unpack _). vm_compute. exact I. }
  destruct (transform_proxy_headers_items Samples.proxy_sample Hnd)
    as [Hitems Hname].
  split; [exact Hnd|]. split; [exact Hitems|].
  refine (proj1 (Hname "Proxy-Connection" ["keep-alive"] _ eq_refl)).
  apply elem_of_cons. now left.
Defined.

(** C4 fails as stated: the header [Proxy-Connection] comes back as
    [Connection], in the letter case it had, and not as [connection]. *)
Lemma transform_proxy_headers_keeps_case :
  let header_list := [("Proxy-Connection", ["keep-alive"])] in
  dict_wf header_list
  /\ transform_proxy_headers header_list = [("Connection", ["keep-alive"])]
  /\ transform_as_specified header_list = [("connection", ["keep-alive"])]
  /\ transform_proxy_headers header_list <> transform_as_specified header_list.
Proof.
  cbv zeta. split; [|split; [|split]].
  - apply (bool_decide_unpack _). vm_compute. exact I.
  - reflexivity.
  - reflexivity.
  - discriminate.
Qed.

(** When two entries end up under one name, the later one takes the place
    and the values of the earlier one: here the header [Connection] keeps
    its place and loses its values to [Proxy-Connection]. *)
Example transform_proxy_headers_collision :
  transform_proxy_headers
    [("Connection", ["close"]); ("Proxy-Connection", ["keep-alive"])]
  = [("Connection", ["keep-alive"])].
Proof. reflexivity. Qed.

(* ===================================================================== *)
(** * Response Synthesizer: body, headers and the record *)
(* ===================================================================== *)

(** [del_te_key] cuts out the first entry whose name is transfer-encoding
    in some letter case, and nothing else. *)
Lemma del_te_key_first (hs : headers) :
  (te_key hs = [] /\ del_te_key hs = hs)
  \/ exists pre h vs post,
       hs = pre ++ (h, vs) :: post
       /\ is_te h = true
       /\ te_key pre = []
       /\ te_key hs = h :: te_key post
       /\ del_te_key hs = pre ++ post.
Proof.
  induction hs as [|[k v] hs IH].
  - now left.
  - unfold del_te_key, te_key in *. cbn [keys map List.filter fst] in *.
    fold (is_te k). destruct (is_te k) eqn:Ek.
    + right. exists [], k, v, hs. cbn. now rewrite String.eqb_refl.
    + destruct IH as [[E1 E2]|(pre & h & vs & post & -> & Hh & Hpre & Hte & Hdel)].
      * left. unfold keys in *. now rewrite E1.
      * right. exists ((k, v) :: pre), h, vs, post.
        unfold keys in *. rewrite Hte in *. cbn [map List.filter fst].
        fold (is_te k). rewrite Ek. repeat split; try assumption.
        cbn [dict_del app]. destruct (String.eqb_spec h k) as [->|_].
        -- congruence.
        -- now rewrite Hdel.
Qed.

(** ** When the header block has no transfer-encoding line *)

Lemma header_block_lines (items : headers) (acc : string) :
  fold_left
    (fun acc item =>
       fold_left (fun acc v => acc +:+ fst item +:+ ":" +:+ v +:+ CRLF)
                 (snd item) acc)
    items acc
  = fold_left (fun acc kv => acc +:+ header_line kv)
      (flat_map (fun item => map (fun v => (fst item, v)) (snd item)) items)
      acc.
Proof.
  revert acc. induction items as [|[key values] items IH]; intros acc;
    [reflexivity|].
  cbn [fold_left flat_map fst snd]. rewrite fold_left_app, <- IH. f_equal.
  clear IH. revert acc. induction values as [|v values IHv]; intros acc;
    [reflexivity|].
  cbn [fold_left map]. now rewrite IHv.
Qed.

(** The header block is made of the header lines, in order. *)
Lemma header_string_lines (header_list : headers) :
  header_string header_list
  = fold_left (fun acc kv => acc +:+ header_line kv)
              (header_lines header_list) "".
Proof. apply header_block_lines. Qed.

Lemma keys_dict_set {V} (k x : string) (v : V) (d : dict V) :
  x ∈ keys (dict_set k v d) -> x = k \/ x ∈ keys d.
Proof.
  induction d as [|[k' v'] d IH]; cbn [dict_set keys map fst].
  - intros Hx. apply elem_of_cons in Hx as [->|Hx]; [now left|now right].
  - destruct (String.eqb_spec k k') as [->|Hne]; cbn [map fst]; intros Hx.
    + now right.
    + apply elem_of_cons in Hx as [->|Hx].
      * right. apply elem_of_cons. now left.
      * destruct (IH Hx) as [->|Hd]; [now left|].
        right. apply elem_of_cons. now right.
Qed.




Lemma te_key_app (pre post : headers) :
  te_key (pre ++ post) = te_key pre ++ te_key post.
Proof. unfold te_key, keys. now rewrite map_app, List.filter_app. Qed.


Section ResponseFacts.
Context {HTTPMessage : Type} `{Compat HTTPMessage}.

Lemma VCRHTTPResponse_init_ok (st : Store) (l : loc) (rr : RecordedResponse) :
  st !! l = Some rr ->
  VCRHTTPResponse_init l st
  = (Ok (mkResponse l (status_message rr) (status_code rr) (status_code rr)
                    VNone
                    (mkBytesIO (body_string rr) 0) false
                    (parse_headers (del_te_key (rec_headers rr)))
                    (or_None (get_header
                                (parse_headers (del_te_key (rec_headers rr)))
                                "content-length"))),
     <[l := strip rr]> st).
Proof.
  intros Hl. unfold VCRHTTPResponse_init, bind, deref, modify, ret.
  now rewrite Hl.
Qed.

Lemma append_cons (c : ascii) (a b : string) :
  String c a +:+ b = String c (a +:+ b).
Proof. reflexivity. Qed.

Lemma append_nil_r (a : string) : a +:+ "" = a.
Proof. induction a as [|c a IH]; [reflexivity|]. now rewrite append_cons, IH. Qed.

Lemma take_drop (n : nat) (s : string) :
  take n s +:+ Str.drop (String.length (take n s)) s = s.
Proof.
  revert s; induction n as [|n IH]; intros [|c s]; simpl; try reflexivity.
  rewrite append_cons. f_equal. apply IH.
Qed.

Lemma drop_drop (n m : nat) (s : string) :
  Str.drop (n + m) s = Str.drop m (Str.drop n s).
Proof.
  revert s; induction n as [|n IH]; intros s; simpl; [reflexivity|].
  destruct s; [now destruct m|apply IH].
Qed.

Lemma drop_all (s : string) : Str.drop (String.length s) s = "".
Proof. induction s; simpl; auto. Qed.

(** The sizes that fit an index are those of 64 bits. *)
Lemma fits_index_spec (n : Z) :
  fits_index n = true <-> - 2 ^ 63 <= n <= 2 ^ 63 - 1.
Proof.
  unfold fits_index, PY_SSIZE_T_MAX.
  rewrite andb_true_iff, !Z.leb_le. lia.
Qed.

(** A read without a size returns all that is left. *)
Lemma BytesIO_read_all (io : BytesIO) :
  fst (BytesIO_read None io) = Ok (Str.drop (position io) (buffer io)).
Proof. reflexivity. Qed.

(** A read of a size that fits an index returns; what it returns and what
    is left after it make up what was left before it. *)
Lemma BytesIO_read_rest (n : Z) (io : BytesIO) :
  fits_index n = true ->
  exists chunk io',
    BytesIO_read (Some n) io = (Ok chunk, io')
    /\ buffer io' = buffer io
    /\ chunk +:+ Str.drop (position io') (buffer io)
       = Str.drop (position io) (buffer io).
Proof.
  intros Hfits. unfold BytesIO_read. rewrite Hfits. cbn [negb].
  eexists _, _. split; [reflexivity|]. cbn [buffer position].
  split; [reflexivity|]. rewrite drop_drop.
  set (rest := Str.drop (position io) (buffer io)).
  destruct (n <? 0); [|apply take_drop].
  rewrite drop_all. apply append_nil_r.
Qed.

(** A read of a size that does not fit raises, and reads nothing. *)
Lemma BytesIO_read_overflow (n : Z) (io : BytesIO) :
  fits_index n = false ->
  BytesIO_read (Some n) io = (Raise OverflowError, io).
Proof. intros Hfits. unfold BytesIO_read. now rewrite Hfits. Qed.

Lemma read_to_completion_rest (sizes : list Z) (r : VCRHTTPResponse HTTPMessage) :
  forallb fits_index sizes = true ->
  read_to_completion sizes r
  = Ok (Str.drop (position (_content r)) (buffer (_content r))).
Proof.
  revert r; induction sizes as [|n sizes IH]; intros r Hfit;
    cbn [read_to_completion].
  - reflexivity.
  - cbn [forallb] in Hfit. apply andb_true_iff in Hfit as [Hn Hfit].
    unfold VCRHTTPResponse_read.
    destruct (BytesIO_read_rest n (_content r) Hn)
      as (chunk & io & -> & Hbuf & Hrest).
    rewrite (IH _ Hfit). cbn [set_content _content]. rewrite Hbuf.
    now rewrite Hrest.
Qed.

Lemma read_to_completion_overflow (before after : list Z) (n : Z)
    (r : VCRHTTPResponse HTTPMessage) :
  forallb fits_index before = true ->
  fits_index n = false ->
  read_to_completion (before ++ n :: after) r = Raise OverflowError.
Proof.
  revert r; induction before as [|m before IH]; intros r Hfit Hn.
  - cbn [app read_to_completion]. unfold VCRHTTPResponse_read.
    now rewrite (BytesIO_read_overflow n _ Hn).
  - cbn [forallb] in Hfit. apply andb_true_iff in Hfit as [Hm Hfit].
    cbn [app read_to_completion]. unfold VCRHTTPResponse_read.
    destruct (BytesIO_read_rest m (_content r) Hm) as (chunk & io & -> & _).
    now rewrite (IH _ Hfit Hn).
Qed.

Lemma forallb_fits_index (sizes : list Z) :
  Forall (fun n => - 2 ^ 63 <= n <= 2 ^ 63 - 1) sizes ->
  forallb fits_index sizes = true.
Proof.
  induction 1 as [|n sizes Hn _ IH]; [reflexivity|].
  cbn [forallb]. apply andb_true_iff. split; [|exact IH].
  now apply fits_index_spec.
Qed.

(** X5.  Round trip of the body: a response built from a record, read to
    completion in chunks of any sizes that fit an index (64 bits), yields
    the recorded body; the first size that does not fit makes the read
    raise [OverflowError]. *)
Lemma read_recorded_body (st st' : Store) (l : loc) (rr : RecordedResponse)
    (r : VCRHTTPResponse HTTPMessage) (sizes : list Z) :
  st !! l = Some rr ->
  VCRHTTPResponse_init l st = (Ok r, st') ->
  Forall (fun n => - 2 ^ 63 <= n <= 2 ^ 63 - 1) sizes ->
  read_to_completion sizes r = Ok (body_string rr)
  /\ forall n after,
       ~ (- 2 ^ 63 <= n <= 2 ^ 63 - 1) ->
       read_to_completion (sizes ++ n :: after) r = Raise OverflowError.
Proof.
  intros Hl Hinit Hsizes. apply forallb_fits_index in Hsizes.
  rewrite (VCRHTTPResponse_init_ok _ _ _ Hl) in Hinit.
  injection Hinit as <- _. split.
  - now rewrite read_to_completion_rest.
  - intros n after Hn. apply read_to_completion_overflow; [exact Hsizes|].
    destruct (fits_index n) eqn:E; [|reflexivity].
    now apply fits_index_spec in E.
Qed.

(** C3 (the code at the failing input).  A record with the headers
    [Transfer-Encoding] and [transfer-encoding] yields a response whose body
    reads back as recorded, and whose message is built from a header block
    that still has the line [transfer-encoding:chunked]: only the first of
    the two names was deleted. *)
Theorem transfer_encoding_survives :
  let st : Store := {[ 0%nat := Samples.twice_chunked ]} in
  exists r st',
    VCRHTTPResponse_init 0%nat st = (Ok r, st')
    /\ read_to_completion [] r = Ok "hello"
    /\ st' !! 0%nat
       = Some (mkRecorded 200 "OK" [("transfer-encoding", ["chunked"])] "hello")
    /\ header_lines [("transfer-encoding", ["chunked"])]
       = [("transfer-encoding", "chunked")]
    /\ msg r = get_httpmessage ("transfer-encoding:chunked" +:+ CRLF)
    /\ info r st' = (Ok (get_httpmessage ("transfer-encoding:chunked" +:+ CRLF)),
                     st').
Proof.
  cbv zeta. eexists. eexists. split.
  - apply VCRHTTPResponse_init_ok. reflexivity.
  - repeat split.
Qed.

(** C6 (as amended).  Building a response from the record at [l] replaces
    that record by [strip] of it and touches no other record: the status,
    the body and every header but the first one named transfer-encoding
    stay, in their order, and a record without such a header stays as it
    is.  Reading the body, closing, and the header introspection
    operations leave every record as it is. *)
Theorem replay_changes_of_the_record (st : Store) (l : loc)
    (rr : RecordedResponse) :
  st !! l = Some rr ->
  exists r,
    VCRHTTPResponse_init l st = (Ok r, <[l := strip rr]> st)
    /\ recorded_response r = l
    /\ (forall l', l' <> l -> (<[l := strip rr]> st) !! l' = st !! l')
    /\ (te_key (rec_headers rr) = [] -> <[l := strip rr]> st = st)
    /\ (forall pre h vs post,
          rec_headers rr = pre ++ (h, vs) :: post ->
          is_te h = true -> te_key pre = [] ->
          rec_headers (strip rr) = pre ++ post)
    /\ (forall (st2 : Store) size header default,
          recorded_response (snd (VCRHTTPResponse_read size r)) = l
          /\ recorded_response (snd (VCRHTTPResponse_readline r)) = l
          /\ recorded_response (snd (VCRHTTPResponse_close r)) = l
          /\ snd (info r st2) = st2
          /\ snd (getheaders r st2) = st2
          /\ snd (getheader header default r st2) = st2).
Proof.
  intros Hl. eexists. split; [now apply VCRHTTPResponse_init_ok|].
  cbn [recorded_response]. split; [reflexivity|].
  split; [intros l' Hne; now apply lookup_insert_ne|].
  split.
  { intros Hte. apply insert_id. rewrite Hl. f_equal.
    unfold strip, del_te_key. rewrite Hte. now destruct rr. }
  split.
  { intros pre h vs post Hhs Hh Hpre. cbn [strip rec_headers].
    destruct (del_te_key_first (rec_headers rr))
      as [[E _]|(pre' & h' & vs' & post' & E & Hh' & Hpre' & _ & ->)].
    - exfalso. rewrite Hhs in E. unfold te_key, keys in E.
      rewrite map_app, List.filter_app in E. cbn in E.
      fold (is_te h) in E. rewrite Hh in E.
      now destruct (List.filter _ (map fst pre)).
    - rewrite Hhs in E. clear Hhs Hl.
      revert pre' E Hpre'. induction pre as [|[k v] pre IH]; intros pre' E Hpre'.
      + destruct pre' as [|[k' v'] pre'].
        * now injection E as _ _ ->.
        * injection E as -> _ _. unfold te_key in Hpre'. cbn in Hpre'.
          fold (is_te k') in Hpre'. now rewrite Hh in Hpre'.
      + destruct pre' as [|[k' v'] pre'].
        * injection E as -> _ _. unfold te_key in Hpre. cbn in Hpre.
          fold (is_te h') in Hpre. now rewrite Hh' in Hpre.
        * injection E as -> -> E. cbn [app]. f_equal.
          unfold te_key in Hpre, Hpre'. cbn in Hpre, Hpre'.
          destruct (String.eqb (Str.upper k') _); [discriminate|].
          now apply IH. }
  intros st2 size header default.
  unfold VCRHTTPResponse_read, VCRHTTPResponse_readline, VCRHTTPResponse_close.
  destruct (BytesIO_read _ _), (BytesIO_readline _).
  cbn [snd set_content recorded_response].
  unfold getheader, getheaders, info, bind, deref, ret.
  cbn [recorded_response].
  destruct (st2 !! l); cbn; repeat split; try reflexivity.
  now destruct (map snd _).
Qed.

End ResponseFacts.

Lemma replay_changes_of_the_record_witness :
  let st : Store := {[ 0%nat := Samples.once_chunked; 1%nat := Samples.widgets ]} in
  st !! 0%nat = Some Samples.once_chunked
  /\ st !! 1%nat = Some Samples.widgets
  /\ (exists r : VCRHTTPResponse string,
        VCRHTTPResponse_init 0%nat st
        = (Ok r, <[0%nat := strip Samples.once_chunked]> st))
  /\ rec_headers (strip Samples.once_chunked) = [("Content-Length", ["5"])]
  /\ <[1%nat := strip Samples.widgets]> st = st.
Proof.
  cbv zeta.
  set (st := ({[ 0%nat := Samples.once_chunked; 1%nat := Samples.widgets ]}
              : Store)).
  assert (H0 : st !! 0%nat = Some Samples.once_chunked) by reflexivity.
  assert (H1 : st !! 1%nat = Some Samples.widgets) by reflexivity.
  destruct (replay_changes_of_the_record (H := Double.raw_compat) _ _ _ H0)
    as (r & Hinit & _ & _ & _ & Hfirst & _).
  destruct (replay_changes_of_the_record (H := Double.raw_compat) _ _ _ H1)
    as (_ & _ & _ & _ & Hnone & _).
  split; [exact H0|]. split; [exact H1|].
  split; [exists r; exact Hinit|]. split.
  - exact (Hfirst [] "Transfer-Encoding" ["chunked"]
                  [("Content-Length", ["5"])] eq_refl eq_refl eq_refl).
  - exact (Hnone eq_refl).
Defined.

(** C6 fails as stated: building the response deletes the header
    [Transfer-Encoding] from the recorded response record itself. *)
Lemma init_mutates_the_record :
  let st : Store := {[ 0%nat := Samples.once_chunked ]} in
  let st' := snd (VCRHTTPResponse_init (H := Double.raw_compat) 0%nat st) in
  st !! 0%nat = Some Samples.once_chunked
  /\ st' !! 0%nat
     = Some (mkRecorded 200 "OK" [("Content-Length", ["5"])] "hello")
  /\ st' !! 0%nat <> st !! 0%nat.
Proof.
  cbv zeta. split; [reflexivity|]. split; [reflexivity|].
  vm_compute. discriminate.
Qed.


(* ===================================================================== *)
(** * Occurrences of a string in a string *)
(* ===================================================================== *)

Lemma append_assoc (a b c : string) : (a +:+ b) +:+ c = a +:+ b +:+ c.
Proof.
  induction a as [|x a IH]; [reflexivity|].
  now rewrite !append_cons, IH.
Qed.

Lemma startswith_append (p s : string) : Str.startswith p (p +:+ s) = true.
Proof.
  induction p as [|c p IH]; [reflexivity|].
  rewrite append_cons. simpl. now rewrite Ascii.eqb_refl, IH.
Qed.

Lemma startswith_inv (p s : string) :
  Str.startswith p s = true -> exists rest, s = p +:+ rest.
Proof.
  revert s; induction p as [|c p IH]; intros s Hs.
  - now exists s.
  - destruct s as [|c' s]; [discriminate|]. simpl in Hs.
    apply andb_prop in Hs as [Hc Hs]. apply Ascii.eqb_eq in Hc as ->.
    destruct (IH _ Hs) as [rest ->]. now exists rest.
Qed.

Lemma drop_append (p s : string) : Str.drop (String.length p) (p +:+ s) = s.
Proof. induction p as [|c p IH]; [reflexivity|]. now rewrite append_cons. Qed.

Lemma contains_append (old a b : string) :
  Str.contains old (a +:+ old +:+ b) = true.
Proof.
  induction a as [|c a IH].
  - change ("" +:+ old +:+ b) with (old +:+ b).
    destruct (old +:+ b) eqn:E; simpl; rewrite <- E, startswith_append;
      reflexivity.
  - rewrite append_cons. simpl. rewrite IH. apply orb_true_r.
Qed.

Lemma contains_skip (old a s : string) :
  Str.contains old s = true -> Str.contains old (a +:+ s) = true.
Proof.
  intros Hs. induction a as [|c a IH]; [exact Hs|].
  rewrite append_cons. simpl. rewrite IH. apply orb_true_r.
Qed.

(** [s.replace(old, '', 1)] cuts out the leftmost occurrence of [old], and
    returns [s] when there is none. *)
Lemma remove_first_leftmost (old s : string) :
  (Str.contains old s = false /\ Str.remove_first old s = s)
  \/ exists a b,
       s = a +:+ old +:+ b
       /\ Str.remove_first old s = a +:+ b
       /\ forall a' b', s = a' +:+ old +:+ b' ->
                        (String.length a <= String.length a')%nat.
Proof.
  induction s as [|c s IH].
  - destruct (Str.startswith old "") eqn:E.
    + right. destruct old; [|discriminate]. exists "", "".
      repeat split. intros; simpl; lia.
    + left. simpl. destruct old; [discriminate|]. now split.
  - destruct (Str.startswith old (String c s)) eqn:E.
    + right. destruct (startswith_inv _ _ E) as [rest Hrest].
      exists "", rest. split; [exact Hrest|]. split.
      * simpl Str.remove_first. rewrite E. rewrite Hrest. apply drop_append.
      * intros; simpl; lia.
    + destruct IH as [[Hno Heq]|(a & b & Hs & Hrem & Hleft)].
      * left. simpl. rewrite E. cbn. now rewrite Hno, Heq.
      * right. exists (String c a), b. rewrite !append_cons.
        split; [now rewrite Hs|]. split.
        -- simpl Str.remove_first. rewrite E. now rewrite Hrem.
        -- intros a' b' Ha'. destruct a' as [|c' a'].
           ++ change ("" +:+ old +:+ b') with (old +:+ b') in Ha'.
              rewrite Ha', startswith_append in E. discriminate.
           ++ rewrite append_cons in Ha'. injection Ha' as _ Ha'.
              specialize (Hleft _ _ Ha'). simpl. lia.
Qed.

(* ===================================================================== *)
(** * Connection Proxy: accumulating the request *)
(* ===================================================================== *)

Section ConnectionFacts.
Context {RC C HTTPMessage : Type}.
Context `{RealConnection RC HTTPMessage} `{Cassette C} `{Compat HTTPMessage}.
Context `{Runtime}.

Abbreviation World := (World (RC := RC) (C := C)).
Abbreviation VCRConnection := (VCRConnection (RC := RC)).
Abbreviation Assign := (Assign (RC := RC)).

(** C9 (as amended). [putrequest(method, url)] does what
    [request(method, url, body='', headers=None)] does, and what it does
    with an empty mapping of headers: the same outcome, the same Request,
    the same use of the real connection. *)
Theorem putrequest_is_request_with_empty_body (method url : string) (w : World) :
  putrequest method url w = request method url (Some "") None w
  /\ putrequest method url w = request method url (Some "") (Some []) w.
Proof. split; reflexivity. Qed.


(** C10.  Once [real_connection] is there, an assignment to any attribute
    of the proxy first calls the attribute setter of the real connection
    with the same name and value.  When the setter returns, or raises an
    [AttributeError], the assignment goes on to the proxy's own attribute;
    any other exception leaves [__setattr__] with the proxy's own attribute
    unassigned. *)
Theorem setattr_reaches_real_connection (w : World) (rc : RC) (a : Assign) :
  real_connection (self w) = Some rc ->
  let call := Call_setattr (assign_name a) (assign_value a) in
  (forall rc',
      rc_setattr (assign_name a) (assign_value a) rc = (Ok tt, rc') ->
      VCRConnection_setattr a w = object_setattr a (after_real w call rc'))
  /\ (forall rc',
      rc_setattr (assign_name a) (assign_value a) rc
      = (Raise FaultAttributeError, rc') ->
      VCRConnection_setattr a w = object_setattr a (after_real w call rc'))
  /\ (forall cls rc',
      rc_setattr (assign_name a) (assign_value a) rc
      = (Raise (FaultOther cls), rc') ->
      VCRConnection_setattr a w = (Raise (Passed cls), after_real w call rc'))
  /\ exists later,
      trace (snd (VCRConnection_setattr a w)) = trace w ++ call :: later.
Proof.
  intros Hrc call.
  assert (Hstep : VCRConnection_setattr a w
                  = match rc_setattr (assign_name a) (assign_value a) rc with
                    | (Raise (FaultOther cls), rc') =>
                        (Raise (Passed cls), after_real w call rc')
                    | (_, rc') => object_setattr a (after_real w call rc')
                    end).
  { unfold VCRConnection_setattr, bind, except_AttributeError_pass, on_real.
    rewrite Hrc. fold call.
    destruct (rc_setattr _ _ rc) as [[[]|[|cls]] rc']; reflexivity. }
  repeat split.
  - intros rc' E. now rewrite Hstep, E.
  - intros rc' E. now rewrite Hstep, E.
  - intros cls rc' E. now rewrite Hstep, E.
  - rewrite Hstep.
    assert (Hobj : forall rc', exists later,
               trace (snd (object_setattr a (after_real w call rc')))
               = trace w ++ call :: later).
    { intros rc'. destruct a; cbn; try (now exists []).
      unfold sock_setter, bind, get_real_connection, on_real. cbn.
      destruct (truthy (rc_sock rc')); cbn.
      - destruct (rc_setattr "sock" v rc') as [[|] ?]; cbn;
          rewrite <- app_assoc; now eexists.
      - now exists []. }
    destruct (rc_setattr _ _ rc) as [[[]|[|cls]] rc']; try apply Hobj.
    now exists [].
Qed.


(** C1.  When the cassette is write-protected, and when it can play a
    response for the Request in progress, [connect] returns without a call
    on the real connection.  In the second case [getresponse] makes no call
    on the real connection and leaves the proxy as it is, whatever its
    outcome; with the record that the cassette plays it returns the
    response built from that record. *)
Theorem replay_leaves_real_connection_alone (w : World) :
  (write_protected (cassette w) = true -> connect w = (Ok VNone, w))
  /\ forall r,
      _vcr_request (self w) = Some r ->
      can_play_response_for (cassette w) r = true ->
      connect w = (Ok VNone, w)
      /\ trace (snd (getresponse w)) = trace w
      /\ self (snd (getresponse w)) = self w
      /\ forall l c' rr,
          play_response r (cassette w) = (Ok l, c') ->
          store w !! l = Some rr ->
          exists response,
            getresponse w
            = (Ok response,
               mkWorld (self w) c' (<[l := strip rr]> (store w)) (trace w))
            /\ VCRHTTPResponse_init l (store w)
               = (Ok response, <[l := strip rr]> (store w))
            /\ status response = status_code rr
            /\ reason response = status_message rr
            /\ read_to_completion [] response = Ok (body_string rr).
Proof.
  split.
  - intros Hwp. unfold connect, bind, gets, ret. rewrite Hwp.
    now destruct (has_playable_request _ _).
  - intros r Hr Hplay.
    assert (Hget : getresponse w
                   = bind (on_cassette (play_response r))
                          (fun l => on_store (VCRHTTPResponse_init l)) w).
    { unfold getresponse at 1, bind at 1 2, get_vcr_request, gets.
      now rewrite Hr, Hplay. }
    split; [|split; [|split]].
    + unfold connect, bind, gets, ret, has_playable_request.
      now rewrite Hr, Hplay.
    + rewrite Hget. unfold bind, on_cassette, on_store.
      destruct (play_response r (cassette w)) as [[l|f] c']; [|reflexivity].
      cbn [store self cassette trace].
      now destruct (VCRHTTPResponse_init l (store w)).
    + rewrite Hget. unfold bind, on_cassette, on_store.
      destruct (play_response r (cassette w)) as [[l|f] c']; [|reflexivity].
      cbn [store self cassette trace].
      now destruct (VCRHTTPResponse_init l (store w)).
    + intros l c' rr Hl Hrr. eexists. split; [|split].
      * rewrite Hget. unfold bind, on_cassette, on_store. rewrite Hl.
        cbn [store self cassette trace].
        now rewrite (VCRHTTPResponse_init_ok _ _ _ Hrr).
      * now apply VCRHTTPResponse_init_ok.
      * repeat split.
Qed.



(** ** Computations that never raise the cannot-record fault *)

Lemma quiet_ret {S A} (a : A) : quiet (ret (S := S) a).
Proof. intros s msg s'. discriminate. Qed.

Lemma quiet_gets {S A} (f : S -> A) : quiet (gets f).
Proof. intros s msg s'. discriminate. Qed.

Lemma quiet_modify {S} (f : S -> S) : quiet (modify f).
Proof. intros s msg s'. discriminate. Qed.

Lemma quiet_bind {S A B} (m : M S A) (k : A -> M S B) :
  quiet m -> (forall a, quiet (k a)) -> quiet (bind m k).
Proof.
  intros Hm Hk s msg s'. unfold bind.
  destruct (m s) as [[a|e] s1] eqn:E.
  - apply Hk.
  - intros [= -> ->]. now apply (Hm s msg s').
Qed.

Lemma quiet_if {S A} (b : bool) (m1 m2 : M S A) :
  quiet m1 -> quiet m2 -> quiet (if b then m1 else m2).
Proof. now destruct b. Qed.

Lemma quiet_except {S} (m : M S unit) :
  quiet m -> quiet (except_AttributeError_pass m).
Proof.
  intros Hm s msg s'. unfold except_AttributeError_pass.
  specialize (Hm s msg). destruct (m s) as [[[]|[]] s1]; congruence.
Qed.

Lemma quiet_fault {S A} (f : Fault) : quiet (raise (S := S) (A := A) (exc_of_fault f)).
Proof. intros s msg s'. destruct f; discriminate. Qed.

Lemma quiet_on_real {A} (call : RealCall) (op : RC -> Res Fault A * RC) :
  quiet (on_real (C := C) call op).
Proof.
  intros s msg s'. unfold on_real.
  destruct (real_connection (self s)) as [rc|]; [|discriminate].
  destruct (op rc) as [[a|[|cls]] rc']; discriminate.
Qed.

Lemma quiet_on_cassette {A} (op : C -> Res Fault A * C) :
  quiet (on_cassette (RC := RC) op).
Proof.
  intros s msg s'. unfold on_cassette.
  destruct (op (cassette s)) as [[a|[|cls]] c']; discriminate.
Qed.

Lemma quiet_on_store {A} (m : M Store A) :
  quiet m -> quiet (on_store (RC := RC) (C := C) m).
Proof.
  intros Hm s msg s'. unfold on_store. specialize (Hm (store s) msg).
  destruct (m (store s)) as [[a|e] st]; [discriminate|].
  intros [= -> <-]. now apply (Hm st).
Qed.

Lemma quiet_get_real_connection : quiet (get_real_connection (RC := RC) (C := C)).
Proof.
  intros s msg s'. unfold get_real_connection.
  destruct (real_connection (self s)); discriminate.
Qed.

Lemma quiet_get_vcr_request : quiet (get_vcr_request (RC := RC) (C := C)).
Proof.
  intros s msg s'. unfold get_vcr_request.
  destruct (_vcr_request (self s)); discriminate.
Qed.

Lemma quiet_alloc (rr : RecordedResponse) : quiet (alloc (RC := RC) (C := C) rr).
Proof. intros s msg s'. discriminate. Qed.

Lemma quiet_init (l : loc) :
  quiet (VCRHTTPResponse_init (HTTPMessage := HTTPMessage) l).
Proof.
  intros st msg st'. unfold VCRHTTPResponse_init, bind, deref, modify, ret.
  destruct (st !! l); discriminate.
Qed.

Create HintDb quiet.
#[local] Hint Resolve quiet_ret quiet_gets quiet_modify quiet_if quiet_except
  quiet_fault quiet_on_real quiet_on_cassette quiet_on_store
  quiet_get_real_connection quiet_get_vcr_request quiet_alloc quiet_init
  : quiet.

Ltac quiet_step :=
  first [ solve [auto with quiet]
        | apply quiet_bind; [|intros ?]
        | apply quiet_if ].

Lemma quiet_setattr (a : Assign) : quiet (VCRConnection_setattr (C := C) a).
Proof.
  unfold VCRConnection_setattr. repeat quiet_step.
  destruct a; cbn [object_setattr]; auto with quiet.
  unfold sock_setter. repeat quiet_step.
Qed.

Lemma quiet_port_postfix : quiet (_port_postfix (RC := RC) (C := C)).
Proof. unfold _port_postfix. repeat quiet_step. Qed.

#[local] Hint Resolve quiet_setattr quiet_port_postfix : quiet.

Lemma quiet_url (u : string) : quiet (_url (RC := RC) (C := C) u).
Proof. unfold _url. repeat quiet_step. Qed.

#[local] Hint Resolve quiet_url : quiet.

(** C2.  [getresponse] raises the cannot-record fault exactly when there
    is a Request that the cassette cannot play, the cassette is
    write-protected and its filter accepts the Request.  The proxy, the
    records and the real connection are then as before the call, and the
    message holds the [repr] of the Request, of the path of the cassette
    and of its record mode. *)
Theorem cannot_record_fault (w w' : World) (msg : string) :
  (getresponse w = (Raise (CannotOverwriteExistingCassetteException msg), w')
   <-> exists r,
        _vcr_request (self w) = Some r
        /\ can_play_response_for (cassette w) r = false
        /\ write_protected (cassette w) = true
        /\ filter_request (cassette w) r = true
        /\ msg = cannot_overwrite_message r (cassette w)
        /\ w' = w)
  /\ forall r c,
      Str.contains (repr_Request r) (cannot_overwrite_message r c) = true
      /\ Str.contains (repr_str (_path c)) (cannot_overwrite_message r c) = true
      /\ Str.contains (repr_str (record_mode c)) (cannot_overwrite_message r c)
         = true.
Proof.
  split; [split|].
  - unfold getresponse, bind at 1 2, get_vcr_request, gets.
    destruct (_vcr_request (self w)) as [r|] eqn:Hr; [|discriminate].
    destruct (can_play_response_for (cassette w) r) eqn:Hplay.
    + intros Hraise. exfalso. revert Hraise.
      apply quiet_bind; [|intros ?]; auto with quiet.
    + unfold bind at 1.
      destruct (write_protected (cassette w) && filter_request (cassette w) r)
        eqn:Hwp.
      * unfold raise. intros [= <- <-]. apply andb_prop in Hwp as [? ?].
        exists r. repeat split; assumption.
      * unfold ret at 1. intros Hraise. exfalso. revert Hraise.
        repeat quiet_step. apply (quiet_gets self).
  - intros (r & Hr & Hplay & Hwp & Hf & -> & ->).
    unfold getresponse, bind, get_vcr_request, gets, raise.
    now rewrite Hr, Hplay, Hwp, Hf.
  - intros r c. unfold cannot_overwrite_message. repeat split.
    + apply contains_append.
    + do 3 apply contains_skip. apply contains_append.
    + do 6 apply contains_skip. apply contains_append.
Qed.



(** ** URI resolution and its inverse *)

Lemma _port_postfix_ok (w : World) (rc : RC) :
  real_connection (self w) = Some rc ->
  _port_postfix w = (Ok (postfix_of (self w) rc), w).
Proof.
  intros Hrc. unfold _port_postfix, postfix_of, bind, gets, ret,
    get_real_connection.
  destruct (_proxied (self w)); [reflexivity|]. now rewrite Hrc.
Qed.

Lemma _url_ok (w : World) (rc : RC) (u : string) :
  real_connection (self w) = Some rc ->
  _url u w = (Ok (Str.remove_first (url_prefix (self w) rc) u), w).
Proof.
  intros Hrc. unfold _url, bind at 1 2, gets, get_real_connection.
  rewrite Hrc. unfold bind. now rewrite (_port_postfix_ok w rc Hrc).
Qed.

Lemma _uri_direct (w : World) (rc : RC) (url : string) :
  real_connection (self w) = Some rc ->
  _proxied (self w) = false ->
  _uri url w = (Ok (url_prefix (self w) rc +:+ url), w).
Proof.
  intros Hrc Hp. unfold _uri, bind at 1, gets. rewrite Hp. cbn [andb].
  unfold bind at 1, bind at 1, get_real_connection, ret. rewrite Hrc.
  unfold bind. rewrite (_port_postfix_ok w rc Hrc).
  unfold url_prefix. now rewrite !append_assoc.
Qed.

Lemma remove_first_prefix (p rest : string) :
  Str.remove_first p (p +:+ rest) = rest.
Proof.
  destruct (p +:+ rest) eqn:E; simpl; rewrite <- E, startswith_append;
    apply drop_append.
Qed.

(** What [_url] computes: it removes from the URI the leftmost occurrence
    of the prefix made of the scheme, the host of the real connection and
    the port suffix of [_port_postfix], and a URI without an occurrence
    comes back unchanged.  A URI that begins with the prefix loses it at
    its left end: this is so for every URI that a connection that is not
    proxy-aware resolves; with the real host api.test on port 443,
    https://api.test/foo?x=1 gives /foo?x=1.  Nothing keeps the occurrence
    at the left end. *)
Lemma url_removes_leftmost_prefix (w : World) (rc : RC) (u : string) :
  real_connection (self w) = Some rc ->
  let prefix := url_prefix (self w) rc in
  _url u w = (Ok (Str.remove_first prefix u), w)
  /\ ((Str.contains prefix u = false /\ Str.remove_first prefix u = u)
      \/ exists a b,
           u = a +:+ prefix +:+ b
           /\ Str.remove_first prefix u = a +:+ b
           /\ forall a' b', u = a' +:+ prefix +:+ b' ->
                            (String.length a <= String.length a')%nat)
  /\ (forall rest, _url (prefix +:+ rest) w = (Ok rest, w))
  /\ (_proxied (self w) = false ->
      forall url, exists resolved,
        _uri url w = (Ok resolved, w) /\ _url resolved w = (Ok url, w))
  /\ (_protocol (self w) = https -> _proxied (self w) = false ->
      rc_host rc = "api.test" -> rc_port rc = 443 ->
      _url "https://api.test/foo?x=1" w = (Ok "/foo?x=1", w)).
Proof.
  intros Hrc prefix. split; [now apply _url_ok|].
  split; [apply remove_first_leftmost|].
  split; [|split].
  - intros rest. rewrite (_url_ok w rc _ Hrc). fold prefix.
    now rewrite remove_first_prefix.
  - intros Hp url. exists (prefix +:+ url). split.
    + now apply _uri_direct.
    + rewrite (_url_ok w rc _ Hrc). fold prefix.
      now rewrite remove_first_prefix.
  - intros Hproto Hp Hhost Hport. rewrite (_url_ok w rc _ Hrc).
    unfold url_prefix, postfix_of. now rewrite Hproto, Hp, Hhost, Hport.
Qed.


Lemma on_real_bookkeeping {A} (call : RealCall) (op : RC -> Res Fault A * RC)
    (w w' : World) (r : Res Exc A) :
  on_real call op w = (r, w') -> same_bookkeeping (self w) (self w').
Proof.
  unfold on_real, same_bookkeeping.
  destruct (real_connection (self w)) as [rc|].
  - destruct (op rc) as [[a|f] rc']; intros [= <- <-]; cbn; tauto.
  - intros [= <- <-]. tauto.
Qed.

Lemma except_on_real_bookkeeping (call : RealCall)
    (op : RC -> Res Fault unit * RC) (w w' : World) (r : Res Exc unit) :
  except_AttributeError_pass (on_real call op) w = (r, w') ->
  same_bookkeeping (self w) (self w').
Proof.
  unfold except_AttributeError_pass.
  destruct (on_real call op w) as [[[]|e] w1] eqn:E;
    apply on_real_bookkeeping in E.
  - now intros [= <- <-].
  - destruct e; now intros [= <- <-].
Qed.

Lemma set_tunnel_ok (w w' : World) (host : string) (port : option Z)
    (hs : option headers) :
  set_tunnel host port hs w = (Ok tt, w') ->
  _protocol (self w') = _protocol (self w)
  /\ _proxied (self w') = true
  /\ _proxied_host (self w') = Some host
  /\ _proxied_port (self w')
     = Some (port_or_default port (_protocol (self w))).
Proof.
  unfold set_tunnel, bind at 1 2, gets.
  destruct (_proxied (self w)) eqn:Hp; [|discriminate].
  unfold ret at 1, bind at 1, VCRConnection_setattr at 1, bind at 1.
  destruct (except_AttributeError_pass _ w) as [[[]|e] w1] eqn:E1;
    [|discriminate].
  apply except_on_real_bookkeeping in E1 as (P1 & P2 & P3 & P4 & P5).
  cbn [object_setattr modify set_self].
  unfold bind at 1, gets. cbn [self _protocol].
  unfold bind at 1, VCRConnection_setattr at 1, bind at 1.
  destruct (except_AttributeError_pass _ _) as [[[]|e] w2] eqn:E2;
    [|discriminate].
  apply except_on_real_bookkeeping in E2 as (Q1 & Q2 & Q3 & Q4 & Q5).
  cbn [object_setattr modify set_self].
  intros E3. apply on_real_bookkeeping in E3 as (R1 & R2 & R3 & R4 & R5).
  cbn [set_self self _protocol _proxied _proxied_host _proxied_port] in *.
  rewrite R1, R2, R3, R4, Q1, Q2, Q3, P1, P2. now rewrite Hp.
Qed.

Lemma _uri_tunnel (w : World) (host path : string) (port : Z) :
  _proxied (self w) = true ->
  _proxied_host (self w) = Some host ->
  _proxied_port (self w) = Some port ->
  host <> "" ->
  _uri path w
  = (Ok (protocol_name (_protocol (self w)) +:+ "://" +:+ host
         +:+ tunnel_postfix (_protocol (self w)) port +:+ path), w).
Proof.
  intros Hp Hh Hport Hne. apply String.eqb_neq in Hne.
  unfold _uri, bind at 1, gets. rewrite Hp, Hh. cbn [andb no_host].
  rewrite Hne. unfold bind at 1, ret at 1, bind, _port_postfix, bind, gets, ret.
  rewrite Hp, Hport. unfold tunnel_postfix. cbn [port_differs format_host format_port].
  now destruct (port =? default_port (_protocol (self w))).
Qed.

(** C7.  After [set_tunnel(host, port)] on a proxy-aware connection, a
    path resolves to the scheme, the tunnel host, the port suffix and the
    path; for https and [example.com], [9443] this is
    [https://example.com:9443] followed by the path; the suffix is omitted
    when the tunnel port is the default of the protocol, 443 for https and
    80 for http, given or defaulted, and is [:port] for every other port. *)
Theorem tunnel_uri (w w' : World) (host : string) (port : option Z)
    (hs : option headers) (path : string) :
  set_tunnel host port hs w = (Ok tt, w') ->
  host <> "" ->
  let protocol := _protocol (self w) in
  _uri path w'
  = (Ok (protocol_name protocol +:+ "://" +:+ host
         +:+ tunnel_postfix protocol (port_or_default port protocol)
         +:+ path), w')
  /\ (protocol = https -> host = "example.com" -> port = Some 9443 ->
      _uri path w' = (Ok ("https://example.com:9443" +:+ path), w'))
  /\ (port = None \/ port = Some (default_port protocol) ->
      _uri path w'
      = (Ok (protocol_name protocol +:+ "://" +:+ host +:+ path), w'))
  /\ (protocol = https -> port = None \/ port = Some 443 ->
      _uri path w' = (Ok ("https://" +:+ host +:+ path), w'))
  /\ (protocol = http -> port = None \/ port = Some 80 ->
      _uri path w' = (Ok ("http://" +:+ host +:+ path), w'))
  /\ (forall p, port = Some p -> p <> 0 ->
      (protocol = https -> p <> 443 ->
       _uri path w'
       = (Ok ("https://" +:+ host +:+ ":" +:+ Str.of_Z p +:+ path), w'))
      /\ (protocol = http -> p <> 80 ->
          _uri path w'
          = (Ok ("http://" +:+ host +:+ ":" +:+ Str.of_Z p +:+ path), w'))).
Proof.
  intros Hset Hne protocol.
  destruct (set_tunnel_ok _ _ _ _ _ Hset) as (Hproto & Hp & Hh & Hport).
  assert (Huri := _uri_tunnel w' host path _ Hp Hh Hport Hne).
  rewrite Hproto in Huri. fold protocol in Huri.
  split; [exact Huri|]. split; [|split; [|split; [|split]]].
  - intros Hhttps -> ->. rewrite Huri, Hhttps. reflexivity.
  - intros Hdefault. rewrite Huri.
    assert (E : tunnel_postfix protocol (port_or_default port protocol) = "").
    { unfold tunnel_postfix.
      destruct Hdefault as [-> | ->]; cbn [port_or_default].
      - now rewrite Z.eqb_refl.
      - destruct (default_port protocol =? 0); now rewrite Z.eqb_refl. }
    now rewrite E.
  - intros Hhttps Hdefault. rewrite Huri, Hhttps.
    now destruct Hdefault as [-> | ->].
  - intros Hhttp Hdefault. rewrite Huri, Hhttp.
    now destruct Hdefault as [-> | ->].
  - intros p -> Hp0. apply Z.eqb_neq in Hp0.
    split; intros Hscheme Hother; apply Z.eqb_neq in Hother;
      rewrite Huri, Hscheme; unfold tunnel_postfix;
      cbn [port_or_default default_port protocol_name];
      rewrite Hp0, Hother; now rewrite !append_assoc.
Qed.

End ConnectionFacts.

(** C9 fails as stated: after [putrequest('GET', '/')] the body of the
    Request is the empty string, after [request('GET', '/')] it is [None]. *)
Lemma putrequest_differs_from_request :
  let w := Double.world_of Double.direct (Double.blank_tape false) ∅ in
  option_map body (_vcr_request (self (snd (putrequest "GET" "/" w))))
  = Some (Some "")
  /\ option_map body (_vcr_request (self (snd (request "GET" "/" None None w))))
     = Some None
  /\ snd (putrequest "GET" "/" w) <> snd (request "GET" "/" None None w).
Proof.
  cbv zeta. split; [reflexivity|]. split; [reflexivity|].
  intros E. apply (f_equal (fun w => option_map body (_vcr_request (self w)))) in E.
  vm_compute in E. discriminate.
Qed.

Lemma setattr_reaches_real_connection_witness :
  let w := Samples.fresh_direct in
  let rc := Double.mkDouble "api.test" 443 [] in
  real_connection (self w) = Some rc
  /\ VCRConnection_setattr (Set_proxied_port (Some 9443)) w
     = object_setattr (Set_proxied_port (Some 9443))
         (after_real w (Call_setattr "_proxied_port" (VInt 9443))
            (Double.mkDouble "api.test" 443 [("_proxied_port", VInt 9443)]))
  /\ VCRConnection_setattr (Set_attr "read_only" (VInt 3)) w
     = object_setattr (Set_attr "read_only" (VInt 3))
         (after_real w (Call_setattr "read_only" (VInt 3)) rc)
  /\ VCRConnection_setattr (Set_attr "validated" (VInt 3)) w
     = (Raise (Passed "ValueError"),
        after_real w (Call_setattr "validated" (VInt 3)) rc).
Proof.
  cbv zeta.
  assert (Hrc : real_connection (self Samples.fresh_direct)
                = Some (Double.mkDouble "api.test" 443 [])) by reflexivity.
  destruct (setattr_reaches_real_connection _ _ (Set_proxied_port (Some 9443))
              Hrc) as (Hok & _).
  destruct (setattr_reaches_real_connection _ _ (Set_attr "read_only" (VInt 3))
              Hrc) as (_ & Hattr & _).
  destruct (setattr_reaches_real_connection _ _ (Set_attr "validated" (VInt 3))
              Hrc) as (_ & _ & Hother & _).
  split; [exact Hrc|]. split; [exact (Hok _ eq_refl)|].
  split; [exact (Hattr _ eq_refl)|exact (Hother _ _ eq_refl)].
Defined.

(** ** The proxy on concrete inputs *)

Lemma replay_leaves_real_connection_alone_witness :
  write_protected (cassette Samples.refusing) = true
  /\ connect Samples.refusing = (Ok VNone, Samples.refusing)
  /\ _vcr_request (self Samples.replaying) = Some Samples.get_widgets
  /\ can_play_response_for (cassette Samples.replaying) Samples.get_widgets
     = true
  /\ connect Samples.replaying = (Ok VNone, Samples.replaying)
  /\ trace (snd (getresponse Samples.replaying)) = []
  /\ exists response,
       fst (getresponse Samples.replaying) = Ok response
       /\ read_to_completion [] response = Ok "[1, 2]".
Proof.
  destruct (replay_leaves_real_connection_alone Samples.refusing) as [Hwp _].
  destruct (replay_leaves_real_connection_alone Samples.replaying) as [_ Hplay].
  destruct (Hplay Samples.get_widgets eq_refl eq_refl)
    as (Hconnect & Htrace & _ & Hresp).
  destruct (Hresp 0%nat Samples.recorded_tape Samples.widgets eq_refl eq_refl)
    as (response & Hget & _ & _ & _ & Hread).
  split; [reflexivity|]. split; [exact (Hwp eq_refl)|].
  split; [reflexivity|]. split; [reflexivity|].
  split; [exact Hconnect|]. split; [exact Htrace|].
  exists response. split; [now rewrite Hget|exact Hread].
Defined.

Lemma cannot_record_fault_witness :
  exists msg,
    getresponse Samples.refusing
    = (Raise (CannotOverwriteExistingCassetteException msg), Samples.refusing)
    /\ msg = "No match for the request (<Request (GET) https://api.test/widgets>) was found. Can't overwrite existing cassette ('fixtures/widgets.yaml') in your current record mode ('none')."
    /\ Str.contains "'fixtures/widgets.yaml'" msg = true.
Proof.
  eexists. split; [|split; [reflexivity|]].
  - apply (proj1 (cannot_record_fault Samples.refusing Samples.refusing _)).
    exists Samples.get_widgets. repeat split.
  - exact (proj1 (proj2 (proj2 (cannot_record_fault Samples.refusing
                                  Samples.refusing "")
                                Samples.get_widgets (Double.blank_tape true)))).
Defined.



(** The same from the calls of a client: [putrequest], then [putheader]
    twice. *)
Example putheader_twice :
  request_headers
    (snd ((putrequest "GET" "/widgets" ;;;
           putheader "Accept" ["text/html"] ;;;
           putheader "Accept" ["application/json"]) Samples.fresh_direct))
  = Some [("Accept", ["application/json"])]
  /\ request_headers
       (snd ((putrequest "GET" "/widgets" ;;;
              putheader "Accept" ["text/html"] ;;;
              putheader "ACCEPT" ["application/json"]) Samples.fresh_direct))
     = Some [("Accept", ["application/json"])].
Proof. split; reflexivity. Qed.

Lemma tunnel_uri_witness :
  (exists w',
     set_tunnel "example.com" (Some 9443) None Samples.fresh_proxied
     = (Ok tt, w')
     /\ "example.com" <> ""
     /\ _uri "/widgets" w' = (Ok "https://example.com:9443/widgets", w'))
  /\ (exists w',
        set_tunnel "example.com" None None Samples.fresh_proxied = (Ok tt, w')
        /\ _uri "/widgets" w' = (Ok "https://example.com/widgets", w'))
  /\ (exists w',
        set_tunnel "example.com" (Some 443) None Samples.fresh_proxied
        = (Ok tt, w')
        /\ _uri "/widgets" w' = (Ok "https://example.com/widgets", w'))
  /\ (exists w',
        set_tunnel "example.com" (Some 80) None Cases.http_proxied
        = (Ok tt, w')
        /\ _uri "/widgets" w' = (Ok "http://example.com/widgets", w'))
  /\ exists w',
       set_tunnel "example.com" (Some 443) None Cases.http_proxied
       = (Ok tt, w')
       /\ _uri "/widgets" w' = (Ok "http://example.com:443/widgets", w').
Proof.
  assert (Hne : "example.com" <> "") by discriminate.
  split; [|split; [|split; [|split]]].
  - eexists. split; [reflexivity|]. split; [exact Hne|].
    exact (proj1 (proj2 (tunnel_uri Samples.fresh_proxied _ "example.com"
                           (Some 9443) None "/widgets" eq_refl Hne))
                 eq_refl eq_refl eq_refl).
  - eexists. split; [reflexivity|].
    exact (proj1 (proj2 (proj2 (tunnel_uri Samples.fresh_proxied _
                                  "example.com" None None "/widgets"
                                  eq_refl Hne)))
                 (or_introl eq_refl)).
  - eexists. split; [reflexivity|].
    exact (proj1 (proj2 (proj2 (proj2
             (tunnel_uri Samples.fresh_proxied _ "example.com" (Some 443)
                None "/widgets" eq_refl Hne))))
             eq_refl (or_intror eq_refl)).
  - eexists. split; [reflexivity|].
    exact (proj1 (proj2 (proj2 (proj2 (proj2
             (tunnel_uri Cases.http_proxied _ "example.com" (Some 80)
                None "/widgets" eq_refl Hne)))))
             eq_refl (or_intror eq_refl)).
  - eexists. split; [reflexivity|].
    assert (H0 : 443 <> 0) by lia. assert (H80 : 443 <> 80) by lia.
    exact (proj2 (proj2 (proj2 (proj2 (proj2 (proj2
             (tunnel_uri Cases.http_proxied _ "example.com" (Some 443)
                None "/widgets" eq_refl Hne))))) 443 eq_refl H0)
             eq_refl H80).
Defined.

Lemma url_removes_leftmost_prefix_witness :
  real_connection (self Samples.fresh_direct)
  = Some (Double.mkDouble "api.test" 443 [])
  /\ _url "https://api.test/foo?x=1" Samples.fresh_direct
     = (Ok "/foo?x=1", Samples.fresh_direct)
  /\ exists resolved,
       _uri "/foo?x=1" Samples.fresh_direct
       = (Ok resolved, Samples.fresh_direct)
       /\ _url resolved Samples.fresh_direct
          = (Ok "/foo?x=1", Samples.fresh_direct).
Proof.
  split; [reflexivity|].
  destruct (url_removes_leftmost_prefix Samples.fresh_direct
              (Double.mkDouble "api.test" 443 []) "https://api.test/foo?x=1"
              eq_refl) as (_ & _ & _ & Hinverse & Hex).
  split; [exact (Hex eq_refl eq_refl eq_refl eq_refl)|].
  exact (Hinverse eq_refl "/foo?x=1").
Defined.

(** C8 (the code at the failing input).  Over the proxy proxy.test, with a
    tunnel to example.com:9443, [request] resolves the path
    /cb?u=https://proxy.test:9443/x to a URI that begins with the scheme,
    host and port of the tunnel.  The prefix that [_url] computes has the
    host of the real connection: the URI does not begin with it and has it
    in its query, and [_url] cuts it out there, so that [getresponse] sends
    the real connection the URL https://example.com:9443/cb?u=/x.  In the
    same way, with the real host api.test on the default port,
    https://x.test/?next=https://api.test/foo loses the prefix in its
    query. *)
Theorem url_removes_inner_occurrence :
  let w := snd ((set_tunnel "example.com" (Some 9443) None ;;;
                 request "GET" "/cb?u=https://proxy.test:9443/x" None None)
                  Samples.fresh_proxied) in
  let u := "https://example.com:9443/cb?u=https://proxy.test:9443/x" in
  option_map uri (_vcr_request (self w)) = Some u
  /\ (exists rc,
        real_connection (self w) = Some rc
        /\ rc_host rc = "proxy.test"
        /\ url_prefix (self w) rc = "https://proxy.test:9443")
  /\ Str.startswith "https://proxy.test:9443" u = false
  /\ _url u w = (Ok "https://example.com:9443/cb?u=/x", w)
  /\ _url u w <> (Ok u, w)
  /\ trace (snd (getresponse w))
     = trace w
       ++ [Call_request "GET" "https://example.com:9443/cb?u=/x" None [];
           Call_getresponse;
           Call_setattr "auto_open" (VInt 0)]
  /\ url_prefix (self Samples.fresh_direct)
       (Double.mkDouble "api.test" 443 [])
     = "https://api.test"
  /\ Str.startswith "https://api.test"
       "https://x.test/?next=https://api.test/foo" = false
  /\ _url "https://x.test/?next=https://api.test/foo" Samples.fresh_direct
     = (Ok "https://x.test/?next=/foo", Samples.fresh_direct).
Proof.
  cbv zeta. split; [reflexivity|]. split.
  { eexists. split; [reflexivity|]. split; reflexivity. }
  split; [reflexivity|]. split; [reflexivity|]. split; [discriminate|].
  repeat split.
Qed.

(** The calls that reach the real connection in that exchange. *)
Example url_in_tunnel :
  trace (snd ((set_tunnel "example.com" (Some 9443) None ;;;
               request "GET" "/cb?u=https://proxy.test:9443/x" None None ;;;
               getresponse) Samples.fresh_proxied))
  = [Call_setattr "_proxied_host" (VStr "example.com");
     Call_setattr "_proxied_port" (VInt 9443);
     Call_set_tunnel "example.com" (Some 9443) None;
     Call_setattr "_vcr_request"
       (VRequest (mkRequest "GET"
                    "https://example.com:9443/cb?u=https://proxy.test:9443/x"
                    None []));
     Call_request "GET" "https://example.com:9443/cb?u=/x" None [];
     Call_getresponse;
     Call_setattr "auto_open" (VInt 0)].
Proof. reflexivity. Qed.

(** [__init__]: the assignment of [real_connection] itself finds no real
    connection to pass it to; the three that follow are passed on. *)
Example init_trace :
  trace (snd (VCRConnection_init []
                (Double.world_of (new_object https) (Double.blank_tape false) ∅)))
  = [Call_setattr "_proxied" (VBool true);
     Call_setattr "_proxied_host" VNone;
     Call_setattr "_proxied_port" VNone].
Proof. reflexivity. Qed.

(* ===================================================================== *)
(** * Further properties: header mappings *)
(* ===================================================================== *)



Lemma dict_set_wf {V} (k : string) (v : V) (d : dict V) :
  dict_wf d -> dict_wf (dict_set k v d).
Proof.
  unfold dict_wf. intros Hwf.
  destruct (decide (k ∈ keys d)) as [Hin|Hout].
  - now rewrite keys_dict_set_present.
  - rewrite dict_set_fresh by assumption. unfold keys. rewrite map_app.
    apply NoDup_app. split; [exact Hwf|]. split.
    + intros x Hx Hk. apply list_elem_of_singleton in Hk. now subst.
    + apply NoDup_singleton.
Qed.

Lemma proxy_name_second_segment (key : string) :
  Str.lower key = "proxy-connection" -> proxy_name (second_segment key) = false.
Proof.
  intros Hk. destruct (split_proxy_connection key Hk) as (_ & _ & _ & _ & Hb).
  unfold proxy_name. now rewrite Hb.
Qed.

Lemma transform_step_proxy_free (acc : headers) (item : string * list string) :
  proxy_free acc -> proxy_free (transform_step acc item).
Proof.
  intros [Hwf Hfree]. destruct item as [key values]. unfold transform_step.
  destruct (String.eqb_spec (Str.lower key) "proxy-connection") as [Hpc|Hpc].
  - split; [now apply dict_set_wf|].
    intros k Hk. apply keys_dict_set in Hk as [->|Hk]; [|now apply Hfree].
    now apply proxy_name_second_segment.
  - destruct (String.eqb_spec (Str.lower key) "proxy-authorization") as [Hpa|Hpa];
      cbn [negb]; [now split|].
    split; [now apply dict_set_wf|].
    intros k Hk. apply keys_dict_set in Hk as [->|Hk]; [|now apply Hfree].
    unfold proxy_name. apply String.eqb_neq in Hpc, Hpa. now rewrite Hpc, Hpa.
Qed.

Lemma transform_proxy_free (header_list : headers) :
  proxy_free (transform_proxy_headers header_list).
Proof.
  unfold transform_proxy_headers.
  assert (H0 : proxy_free ([] : headers)).
  { split; [apply NoDup_nil; exact I|]. intros k Hk. now apply elem_of_nil in Hk. }
  revert H0. generalize ([] : headers) as acc.
  induction header_list as [|item hs IH]; intros acc Hacc; [exact Hacc|].
  cbn [fold_left]. apply IH. now apply transform_step_proxy_free.
Qed.

Lemma proxy_name_false (k : string) :
  proxy_name k = false
  <-> Str.lower k <> "proxy-connection" /\ Str.lower k <> "proxy-authorization".
Proof.
  unfold proxy_name. rewrite orb_false_iff, !String.eqb_neq. tauto.
Qed.

Lemma transformed_items_proxy_free (hs : headers) :
  (forall k, k ∈ keys hs -> proxy_name k = false) -> transformed_items hs = hs.
Proof.
  induction hs as [|[key values] hs IH]; intros Hfree; [reflexivity|].
  cbn [transformed_items flat_map fst snd]. fold (transformed_items hs).
  assert (Hk : proxy_name key = false).
  { apply Hfree. apply elem_of_cons. now left. }
  unfold proxy_name in Hk. apply orb_false_elim in Hk as [-> ->].
  cbn [app]. f_equal. apply IH. intros k Hin. apply Hfree.
  apply elem_of_cons. now right.
Qed.

Lemma transform_proxy_free_fixed (hs : headers) :
  proxy_free hs -> transform_proxy_headers hs = hs.
Proof.
  intros [Hwf Hfree].
  assert (Hitems : transformed_items hs = hs)
    by now apply transformed_items_proxy_free.
  unfold transform_proxy_headers. rewrite transform_fold; rewrite Hitems;
    [reflexivity|exact Hwf].
Qed.

(** X1.  Whatever the input, the Header Transform returns a mapping with
    pairwise distinct names, none of which is proxy-connection or
    proxy-authorization in any letter case. *)
Theorem transform_proxy_headers_drops_proxy_names (header_list : headers) :
  dict_wf (transform_proxy_headers header_list)
  /\ forall k, k ∈ keys (transform_proxy_headers header_list) ->
               Str.lower k <> "proxy-connection"
               /\ Str.lower k <> "proxy-authorization".
Proof.
  destruct (transform_proxy_free header_list) as [Hwf Hfree].
  split; [exact Hwf|]. intros k Hk. now apply proxy_name_false, Hfree.
Qed.

(** X2.  A mapping with distinct names and no proxy name comes back from
    the Header Transform as it is, entry for entry. *)
Theorem transform_proxy_headers_fixed (hs : headers) :
  dict_wf hs ->
  (forall k, k ∈ keys hs ->
             Str.lower k <> "proxy-connection"
             /\ Str.lower k <> "proxy-authorization") ->
  transform_proxy_headers hs = hs.
Proof.
  intros Hwf Hfree. apply transform_proxy_free_fixed. split; [exact Hwf|].
  intros k Hk. now apply proxy_name_false, Hfree.
Qed.

(** X3.  The Header Transform is idempotent: on its own output it changes
    nothing. *)
Theorem transform_proxy_headers_idempotent (header_list : headers) :
  transform_proxy_headers (transform_proxy_headers header_list)
  = transform_proxy_headers header_list.
Proof. apply transform_proxy_free_fixed, transform_proxy_free. Qed.

Lemma setdefault_extend_wf (out : headers) (item : string * list string) :
  dict_wf out -> dict_wf (setdefault_extend out item).
Proof.
  intros Hwf. unfold setdefault_extend.
  destruct (dict_get (fst item) out); now apply dict_set_wf.
Qed.

Lemma collected_get (items : list (string * list string)) (acc : headers)
    (k : string) :
  dict_get k (fold_left setdefault_extend items acc)
  = match dict_get k acc with
    | Some vs => Some (vs ++ values_of k items)
    | None => if mentions k items then Some (values_of k items) else None
    end.
Proof.
  revert acc. induction items as [|[k0 vs0] items IH]; intros acc.
  - cbn. destruct (dict_get k acc); [now rewrite app_nil_r|reflexivity].
  - cbn [fold_left values_of mentions flat_map existsb fst snd]. rewrite IH.
    fold (values_of k items). fold (mentions k items).
    unfold setdefault_extend. cbn [fst snd].
    destruct (String.eqb_spec k0 k) as [->|Hne].
    + destruct (dict_get k acc) as [vs|]; rewrite dict_get_set_eq; cbn [orb app].
      * now rewrite app_assoc.
      * reflexivity.
    + assert (Hget : forall v, dict_get k (dict_set k0 v acc) = dict_get k acc).
      { intros v. apply dict_get_set_ne. congruence. }
      destruct (dict_get k0 acc); rewrite Hget; cbn [orb app]; reflexivity.
Qed.

Section SerializeFacts.
Context {HTTPMessage : Type} `{Compat HTTPMessage}.

(** X4.  [serialize_headers] gathers the headers of a live response by
    name: every name that the message gives, once, with the values of all
    its occurrences in their order; the mapping gathered is then put
    through the Header Transform. *)
Theorem serialize_headers_gathers (response_msg : HTTPMessage) :
  exists out,
    serialize_headers response_msg = transform_proxy_headers out
    /\ dict_wf out
    /\ forall k,
         dict_get k out
         = if mentions k (get_headers response_msg)
           then Some (values_of k (get_headers response_msg)) else None.
Proof.
  exists (fold_left setdefault_extend (get_headers response_msg) []).
  split; [reflexivity|]. split.
  - assert (H0 : dict_wf ([] : headers)) by (apply NoDup_nil; exact I).
    revert H0. generalize ([] : headers) as acc.
    induction (get_headers response_msg) as [|item items IH]; intros acc Hacc;
      [exact Hacc|].
    cbn [fold_left]. apply IH. now apply setdefault_extend_wf.
  - intros k. now rewrite collected_get.
Qed.

End SerializeFacts.

(* ===================================================================== *)
(** * Further properties: the synthesized response *)
(* ===================================================================== *)

Lemma drop_past_end (n : nat) (s : string) :
  Str.drop (n + String.length (Str.drop n s)) s = "".
Proof. rewrite drop_drop. apply drop_all. Qed.

Lemma take_nil (n : nat) : take n "" = "".
Proof. now destruct n. Qed.

Lemma take_length (n : nat) (s : string) :
  (String.length (take n s) <= n)%nat.
Proof.
  revert s; induction n as [|n IH]; intros [|c s]; simpl; try lia.
  specialize (IH s). lia.
Qed.

Lemma take_line_rest (s : string) :
  take_line s +:+ Str.drop (String.length (take_line s)) s = s.
Proof.
  induction s as [|c s IH]; [reflexivity|]. cbn [take_line].
  destruct (Ascii.eqb c (ascii_of_N 10));
    cbn [String.length Str.drop]; rewrite append_cons.
  - reflexivity.
  - f_equal. exact IH.
Qed.

(** A line ends with its first newline, which is its only one, or it has
    no newline and is all of the buffer; it is empty only at the end of the
    buffer. *)
Lemma take_line_shape (s : string) :
  (take_line s = "" <-> s = "")
  /\ exists body,
       Str.contains (String (ascii_of_N 10) "") body = false
       /\ (take_line s = body +:+ String (ascii_of_N 10) ""
           \/ (take_line s = body /\ s = body)).
Proof.
  split.
  - destruct s as [|c s]; [tauto|]. cbn [take_line].
    destruct (Ascii.eqb c (ascii_of_N 10)); split; intros E; discriminate E.
  - induction s as [|c s (body & Hno & Hshape)].
    + exists "". split; [reflexivity|]. now right.
    + cbn [take_line]. destruct (Ascii.eqb c (ascii_of_N 10)) eqn:Ec.
      * apply Ascii.eqb_eq in Ec as ->. exists "".
        split; [reflexivity|]. now left.
      * exists (String c body). split.
        -- cbn [Str.contains Str.startswith]. rewrite Ascii.eqb_sym, Ec.
           cbn [andb orb]. exact Hno.
        -- destruct Hshape as [-> | [-> ->]];
             [left; now rewrite append_cons|now right].
Qed.

Section ResponseMore.
Context {HTTPMessage : Type} `{Compat HTTPMessage}.

(** At the end of the body. *)
Lemma read_at_end (r : VCRHTTPResponse HTTPMessage) (size : option Z) :
  Str.drop (position (_content r)) (buffer (_content r)) = "" ->
  VCRHTTPResponse_readline r = ("", r)
  /\ VCRHTTPResponse_read size r
     = (match size with
        | Some n => if fits_index n then Ok "" else Raise OverflowError
        | None => Ok ""
        end, r).
Proof.
  destruct r as [l rsn sts cd ver [buf pos] closed m len].
  unfold VCRHTTPResponse_readline, VCRHTTPResponse_read, BytesIO_readline,
    BytesIO_read, set_content.
  cbn [_content buffer position recorded_response reason status code
       version _closed msg resp_length].
  intros ->. cbn [take_line String.length]. rewrite Nat.add_0_r.
  split; [reflexivity|].
  destruct size as [n|]; [|reflexivity].
  destruct (fits_index n); cbn [negb]; [|reflexivity].
  destruct (n <? 0); [|rewrite take_nil];
    cbn [String.length]; now rewrite Nat.add_0_r.
Qed.

(** X7.  Once the body has been read to the end, a further [read]
    returns the empty string when it has no size or a size that fits an
    index (64 bits) and raises [OverflowError] otherwise, a further
    [readline] returns the empty string, and both leave the position where
    it is; and [read(n)] with [n] from 0 to the largest index returns, and
    never more than [n] octets. *)
Theorem read_after_end (r : VCRHTTPResponse HTTPMessage) (size : option Z) :
  let r' := snd (VCRHTTPResponse_read None r) in
  let fits := match size with
              | None => True
              | Some n => - 2 ^ 63 <= n <= 2 ^ 63 - 1
              end in
  (fits -> fst (VCRHTTPResponse_read size r') = Ok "")
  /\ (~ fits -> fst (VCRHTTPResponse_read size r') = Raise OverflowError)
  /\ fst (VCRHTTPResponse_readline r') = ""
  /\ _content (snd (VCRHTTPResponse_read size r')) = _content r'
  /\ _content (snd (VCRHTTPResponse_readline r')) = _content r'
  /\ forall n, 0 <= n <= 2 ^ 63 - 1 ->
       exists chunk,
         fst (VCRHTTPResponse_read (Some n) r) = Ok chunk
         /\ (String.length chunk <= Z.to_nat n)%nat.
Proof.
  cbv zeta.
  destruct (read_at_end (snd (VCRHTTPResponse_read None r)) size)
    as [-> ->]; [apply drop_past_end|].
  cbn [fst snd].
  split; [|split; [|split; [|split; [|split]]]]; try reflexivity.
  - destruct size as [n|]; [|reflexivity].
    intros Hfits. apply fits_index_spec in Hfits. now rewrite Hfits.
  - destruct size as [n|]; [|tauto].
    intros Hfits. destruct (fits_index n) eqn:E; [|reflexivity].
    now apply fits_index_spec in E.
  - intros n Hn.
    assert (Hfits : fits_index n = true) by (apply fits_index_spec; lia).
    unfold VCRHTTPResponse_read, BytesIO_read. rewrite Hfits. cbn [negb fst].
    destruct (Z.ltb_spec n 0); [lia|]. eexists. split; [reflexivity|].
    apply take_length.
Qed.

(** X8.  [readline] returns the octets up to and including the next
    newline, or all that is left when there is none: the line and what is
    left after it make up what was left before; the line is empty exactly
    at the end of the body; it ends with a newline, its only one, or it has
    none and is all that was left. *)
Theorem readline_rest (r : VCRHTTPResponse HTTPMessage) :
  let left_in r := Str.drop (position (_content r)) (buffer (_content r)) in
  let line := fst (VCRHTTPResponse_readline r) in
  line +:+ left_in (snd (VCRHTTPResponse_readline r)) = left_in r
  /\ (line = "" <-> left_in r = "")
  /\ exists body,
       Str.contains (String (ascii_of_N 10) "") body = false
       /\ (line = body +:+ String (ascii_of_N 10) ""
           \/ (line = body /\ left_in r = body
               /\ left_in (snd (VCRHTTPResponse_readline r)) = "")).
Proof.
  cbv zeta. unfold VCRHTTPResponse_readline, BytesIO_readline.
  cbn [fst snd set_content _content buffer position].
  set (rest := Str.drop (position (_content r)) (buffer (_content r))).
  split; [rewrite drop_drop; fold rest; apply take_line_rest|].
  destruct (take_line_shape rest) as [Hempty (body & Hno & Hshape)].
  split; [exact Hempty|]. exists body. split; [exact Hno|].
  destruct Hshape as [Hline | [Hline Hrest]]; [now left|right].
  split; [exact Hline|]. split; [exact Hrest|].
  rewrite drop_drop. fold rest. rewrite Hline, <- Hrest. apply drop_all.
Qed.

(** X9.  Right after a response is built, [info()] returns the message
    that the response holds as [msg], and [getheaders()] the items of that
    message; neither changes a record. *)
Theorem info_agrees_with_msg (st : Store) (l : loc) (rr : RecordedResponse) :
  st !! l = Some rr ->
  exists r st',
    VCRHTTPResponse_init l st = (Ok r, st')
    /\ info r st' = (Ok (msg r), st')
    /\ getheaders r st' = (Ok (get_header_items (msg r)), st').
Proof.
  intros Hl. eexists. eexists.
  split; [apply VCRHTTPResponse_init_ok; exact Hl|].
  unfold info, getheaders, bind, deref, ret. cbn [recorded_response msg].
  rewrite lookup_insert_eq. cbn [strip rec_headers]. now split.
Qed.

Lemma del_te_key_done (hs : headers) :
  (List.length (te_key hs) <= 1)%nat -> del_te_key (del_te_key hs) = del_te_key hs.
Proof.
  intros Hlen.
  assert (Hnil : te_key (del_te_key hs) = []).
  { destruct (del_te_key_first hs)
      as [[E ->]|(pre & h & vs & post & _ & _ & Hpre & Hte & ->)];
      [exact E|].
    rewrite te_key_app, Hpre. rewrite Hte in Hlen. cbn in Hlen.
    destruct (te_key post); [reflexivity|cbn in Hlen; lia]. }
  unfold del_te_key at 1. now rewrite Hnil.
Qed.

(** X10.  A record with at most one header named transfer-encoding can be
    replayed again and again: building a second response from it changes
    no record any more, and the second response has the message, the
    status and the body of the first. *)
Theorem replay_again (st : Store) (l : loc) (rr : RecordedResponse) :
  st !! l = Some rr ->
  (List.length (te_key (rec_headers rr)) <= 1)%nat ->
  exists r1 r2 st',
    VCRHTTPResponse_init l st = (Ok r1, st')
    /\ VCRHTTPResponse_init l st' = (Ok r2, st')
    /\ r2 = r1.
Proof.
  intros Hl Hlen. eexists. eexists. eexists.
  split; [apply VCRHTTPResponse_init_ok; exact Hl|].
  assert (Hstrip : strip (strip rr) = strip rr).
  { unfold strip. cbn [rec_headers status_code status_message body_string].
    now rewrite del_te_key_done. }
  rewrite (VCRHTTPResponse_init_ok _ l (strip rr)) by apply lookup_insert_eq.
  rewrite Hstrip, insert_insert_eq. split; [reflexivity|].
  cbn [strip rec_headers status_code status_message body_string].
  now rewrite del_te_key_done.
Qed.

End ResponseMore.

Lemma read_recorded_body_witness :
  let st : Store := {[ 0%nat := Samples.widgets ]} in
  st !! 0%nat = Some Samples.widgets
  /\ Forall (fun n => - 2 ^ 63 <= n <= 2 ^ 63 - 1) [2; 0; 3]
  /\ exists (r : VCRHTTPResponse string) st',
       VCRHTTPResponse_init 0%nat st = (Ok r, st')
       /\ read_to_completion [2; 0; 3] r = Ok "[1, 2]"
       /\ read_to_completion [2; 0; 3; 2 ^ 70] r = Raise OverflowError.
Proof.
  cbv zeta.
  assert (Hl : ({[ 0%nat := Samples.widgets ]} : Store) !! 0%nat
               = Some Samples.widgets) by reflexivity.
  assert (Hsizes : Forall (fun n => - 2 ^ 63 <= n <= 2 ^ 63 - 1) [2; 0; 3])
    by (repeat constructor; lia).
  assert (Hbig : ~ (- 2 ^ 63 <= 2 ^ 70 <= 2 ^ 63 - 1)) by lia.
  split; [exact Hl|]. split; [exact Hsizes|].
  pose proof (VCRHTTPResponse_init_ok (H := Double.raw_compat) _ _ _ Hl)
    as Hinit.
  eexists. eexists. split; [exact Hinit|].
  pose proof (read_recorded_body _ _ _ _ _ [2; 0; 3] Hl Hinit Hsizes)
    as [Hbody Hover].
  split; [exact Hbody|]. exact (Hover (2 ^ 70) [] Hbig).
Defined.


Lemma info_agrees_with_msg_witness :
  let st : Store := {[ 0%nat := Samples.once_chunked ]} in
  st !! 0%nat = Some Samples.once_chunked
  /\ exists (r : VCRHTTPResponse string) st',
       VCRHTTPResponse_init 0%nat st = (Ok r, st')
       /\ info r st' = (Ok (msg r), st').
Proof.
  cbv zeta.
  assert (Hl : ({[ 0%nat := Samples.once_chunked ]} : Store) !! 0%nat
               = Some Samples.once_chunked) by reflexivity.
  split; [exact Hl|].
  destruct (info_agrees_with_msg (H := Double.raw_compat) _ _ _ Hl)
    as (r & st' & Hinit & Hinfo & _).
  exists r, st'. now split.
Defined.

Lemma replay_again_witness :
  let st : Store := {[ 0%nat := Samples.once_chunked ]} in
  st !! 0%nat = Some Samples.once_chunked
  /\ (List.length (te_key (rec_headers Samples.once_chunked)) <= 1)%nat
  /\ exists (r : VCRHTTPResponse string) st',
       VCRHTTPResponse_init 0%nat st = (Ok r, st')
       /\ VCRHTTPResponse_init 0%nat st' = (Ok r, st').
Proof.
  cbv zeta.
  assert (Hl : ({[ 0%nat := Samples.once_chunked ]} : Store) !! 0%nat
               = Some Samples.once_chunked) by reflexivity.
  assert (Hlen : (List.length (te_key (rec_headers Samples.once_chunked)) <= 1)%nat)
    by (vm_compute; lia).
  split; [exact Hl|]. split; [exact Hlen|].
  destruct (replay_again (H := Double.raw_compat) _ _ _ Hl Hlen)
    as (r1 & r2 & st' & Hfirst & Hsecond & ->).
  exists r1, st'. now split.
Defined.

(* ===================================================================== *)
(** * Further properties: the Connection Proxy *)
(* ===================================================================== *)



Lemma append_data_default (b : option string) (data : string) :
  append_data b data = default "" b +:+ data.
Proof.
  destruct b as [b|]; [|reflexivity]. cbn [append_data default].
  now destruct (String.eqb_spec b "") as [->|_].
Qed.


Lemma ci_update_proxy_free (d other : headers) :
  proxy_free d -> (forall k, k ∈ keys other -> proxy_name k = false) ->
  proxy_free (ci_update d other).
Proof.
  unfold ci_update. revert d.
  induction other as [|[k v] other IH]; intros d Hd Hother; [exact Hd|].
  cbn [fold_left fst snd]. apply IH.
  - destruct Hd as [Hwf Hfree]. split; [now apply ci_set_wf|].
    intros x Hx. apply keys_ci_set in Hx as [->|Hx]; [|now apply Hfree].
    apply Hother. apply elem_of_cons. now left.
  - intros x Hx. apply Hother. apply elem_of_cons. now right.
Qed.

Section ConnectionMore.
Context {RC C HTTPMessage : Type}.
Context `{RealConnection RC HTTPMessage} `{Cassette C} `{Compat HTTPMessage}.
Context `{Runtime}.

Abbreviation World := (World (RC := RC) (C := C)).
Abbreviation VCRConnection := (VCRConnection (RC := RC)).

Lemma send_ok (w : World) (r : Request) (data : string) :
  _vcr_request (self w) = Some r ->
  send data w
  = (Ok tt, with_request (with_body (Some (default "" (body r) +:+ data)) r) w).
Proof.
  intros Hr. unfold send, update_vcr_request, bind, get_vcr_request, modify.
  rewrite Hr. now rewrite append_data_default.
Qed.

Lemma send_all_ok (chunks : list string) (w : World) (r : Request)
    (data : string) :
  _vcr_request (self w) = Some r ->
  send_all (data :: chunks) w
  = (Ok tt, with_request
              (with_body (Some (default "" (body r) +:+ data
                                +:+ concat_chunks chunks)) r) w).
Proof.
  revert w r data. induction chunks as [|next chunks IH]; intros w r data Hr.
  - cbn [send_all concat_chunks]. unfold bind. rewrite (send_ok w r data Hr).
    unfold ret. now rewrite append_nil_r.
  - cbn [send_all] in *. unfold bind at 1. rewrite (send_ok w r data Hr).
    rewrite (IH _ (with_body (Some (default "" (body r) +:+ data)) r) next)
      by reflexivity.
    cbn [with_body body default concat_chunks method uri req_headers].
    unfold with_request, set_self. cbn. now rewrite !append_assoc.
Qed.

(** X11.  The chunks that [send] is given make up the body in the order
    of the calls, after the body that the Request had (none and the empty
    string count as nothing); the method, the URI and the headers stay,
    and nothing is sent: the real connection is not called. *)
Theorem send_accumulates (chunks : list string) (w : World) (r : Request)
    (data : string) :
  _vcr_request (self w) = Some r ->
  exists w',
    send_all (data :: chunks) w = (Ok tt, w')
    /\ _vcr_request (self w')
       = Some (mkRequest (method r) (uri r)
                 (Some (default "" (body r) +:+ data +:+ concat_chunks chunks))
                 (req_headers r))
    /\ trace w' = trace w
    /\ real_connection (self w') = real_connection (self w)
    /\ cassette w' = cassette w.
Proof.
  intros Hr. eexists. split; [apply send_all_ok; exact Hr|]. repeat split.
Qed.


(** The outcome of a call that needs a Request when there is none. *)
Lemma fill_without_request (op : Fill) (w : World) :
  _vcr_request (self w) = None ->
  op <> Fill_endheaders None ->
  fill op w = (Raise AttributeError, w).
Proof.
  intros Hr Hop. destruct op as [header values|data|[b|]]; cbn [fill];
    unfold putheader, send, endheaders, update_vcr_request, bind,
      get_vcr_request; rewrite ?Hr; try reflexivity.
  congruence.
Qed.

Lemma fill_with_request (op : Fill) (w : World) (r : Request) :
  _vcr_request (self w) = Some r ->
  exists r',
    fill op w = (Ok tt, with_request r' w)
    /\ method r' = method r /\ uri r' = uri r
    /\ (req_headers r' = req_headers r
        \/ exists header values,
             op = Fill_putheader header values
             /\ req_headers r'
                = ci_update (req_headers r)
                    (transform_proxy_headers [(header, values)])).
Proof.
  intros Hr. destruct op as [header values|data|[b|]]; cbn [fill];
    unfold putheader, send, endheaders, update_vcr_request, bind,
      get_vcr_request, modify, ret; rewrite ?Hr.
  - eexists. split; [reflexivity|]. cbn. repeat split. right. now eexists _, _.
  - eexists. split; [reflexivity|]. cbn. repeat split. now left.
  - eexists. split; [reflexivity|]. cbn. repeat split. now left.
  - exists r. split.
    + unfold with_request, set_self. destruct w as [[] ? ? ?]. cbn in *.
      now rewrite Hr.
    + repeat split. now left.
Qed.

(** X12.  [putheader], [send] and [endheaders] with a body need a Request
    in progress: without one they raise [AttributeError] and change
    nothing; with one they return.  In both cases, and for [endheaders]
    without a body, the real connection is not called and the cassette is
    not used. *)
Theorem fill_needs_request (op : Fill) (w : World) :
  op <> Fill_endheaders None ->
  (_vcr_request (self w) = None <-> fill op w = (Raise AttributeError, w))
  /\ (_vcr_request (self w) <> None <-> fst (fill op w) = Ok tt)
  /\ trace (snd (fill op w)) = trace w
  /\ real_connection (self (snd (fill op w))) = real_connection (self w)
  /\ cassette (snd (fill op w)) = cassette w
  /\ store (snd (fill op w)) = store w.
Proof.
  intros Hop. destruct (_vcr_request (self w)) as [r|] eqn:Hr.
  - destruct (fill_with_request op w r Hr) as (r' & -> & _).
    cbn [fst snd]. repeat split; try discriminate; try reflexivity.
  - rewrite (fill_without_request op w Hr Hop). cbn [fst snd].
    repeat split; try discriminate; try reflexivity; try congruence.
Qed.


Lemma setattr_vcr_request_ok (w w' : World) (r : Request) :
  VCRConnection_setattr (Set_vcr_request r) w = (Ok tt, w') ->
  _vcr_request (self w') = Some r /\ cassette w' = cassette w
  /\ store w' = store w.
Proof.
  unfold VCRConnection_setattr, bind.
  destruct (except_AttributeError_pass _ w) as [[[]|e] w1] eqn:E;
    [|discriminate].
  cbn [object_setattr modify]. intros [= <-]. cbn. split; [reflexivity|].
  revert E. unfold except_AttributeError_pass, on_real.
  destruct (real_connection (self w)) as [rc|].
  - destruct (rc_setattr _ _ rc) as [[[]|[|cls]] rc']; intros [= <-];
      now split.
  - intros [= <-]. now split.
Qed.

Lemma _uri_pure (url : string) (w w' : World) (r : Res Exc string) :
  _uri url w = (r, w') -> w' = w.
Proof.
  intros E. apply (f_equal snd) in E. cbn [snd] in E. subst w'.
  destruct w as [[protocol rc proxied host port req other] c st tr].
  unfold _uri, _port_postfix, bind, gets, ret, raise, get_real_connection.
  cbn [self _proxied _proxied_host _protocol real_connection _proxied_port].
  destruct proxied; cbn [andb].
  - destruct (no_host host); [now destruct protocol|reflexivity].
  - now destruct rc.
Qed.

(** What [request] and [putrequest] leave when they return. *)
Lemma request_ok (method url : string) (body : option string)
    (hs : option headers) (w w' : World) :
  request method url body hs w = (Ok tt, w') ->
  exists u,
    _uri url w = (Ok u, w)
    /\ _vcr_request (self w')
       = Some (new_Request method u body
                 (transform_proxy_headers (or_empty hs)))
    /\ cassette w' = cassette w /\ store w' = store w.
Proof.
  unfold request, bind at 1.
  destruct (_uri url w) as [[u|e] w1] eqn:Huri; [|discriminate].
  pose proof (_uri_pure _ _ _ _ Huri) as ->.
  intros Hset. apply setattr_vcr_request_ok in Hset. exists u. tauto.
Qed.

Lemma putrequest_ok (method url : string) (w w' : World) :
  putrequest method url w = (Ok tt, w') ->
  exists u,
    _uri url w = (Ok u, w)
    /\ _vcr_request (self w') = Some (new_Request method u (Some "") [])
    /\ cassette w' = cassette w /\ store w' = store w.
Proof.
  unfold putrequest, bind at 1.
  destruct (_uri url w) as [[u|e] w1] eqn:Huri; [|discriminate].
  pose proof (_uri_pure _ _ _ _ Huri) as ->.
  intros Hset. apply setattr_vcr_request_ok in Hset. exists u. tauto.
Qed.

Lemma fill_all_proxy_free (ops : list Fill) (w : World) (r : Request) :
  _vcr_request (self w) = Some r ->
  proxy_free (req_headers r) ->
  exists r',
    fill_all ops w = (Ok tt, with_request r' w)
    /\ method r' = method r /\ uri r' = uri r
    /\ proxy_free (req_headers r').
Proof.
  revert w r. induction ops as [|op ops IH]; intros w r Hr Hfree.
  - exists r. split; [|split; [reflexivity|split; [reflexivity|exact Hfree]]].
    unfold with_request, set_self. destruct w as [[] ? ? ?]. cbn in *.
    now rewrite Hr.
  - destruct (fill_with_request op w r Hr) as (r1 & Hfill & Hm & Hu & Hhs).
    assert (Hfree1 : proxy_free (req_headers r1)).
    { destruct Hhs as [-> | (header & values & _ & ->)]; [exact Hfree|].
      apply ci_update_proxy_free; [exact Hfree|].
      apply (transform_proxy_free [(header, values)]). }
    destruct (IH (with_request r1 w) r1 eq_refl Hfree1)
      as (r' & Hall & Hm' & Hu' & Hfree').
    exists r'. cbn [fill_all]. unfold bind. rewrite Hfill, Hall.
    split; [reflexivity|]. split; [congruence|]. split; [congruence|].
    exact Hfree'.
Qed.

(** X13.  From [request] or [putrequest] on, through any calls of
    [putheader], [send] and [endheaders], the Request in progress keeps the
    method and the URI it was begun with, and its header mapping has
    pairwise distinct names, none of them proxy-connection or
    proxy-authorization in any letter case. *)
Theorem request_stays_proxy_free (verb url : string) (b : option string)
    (hs : option headers) (ops : list Fill) (w0 w : World) :
  request verb url b hs w0 = (Ok tt, w)
  \/ putrequest verb url w0 = (Ok tt, w) ->
  exists w' r u,
    fill_all ops w = (Ok tt, w')
    /\ _vcr_request (self w') = Some r
    /\ _uri url w0 = (Ok u, w0)
    /\ method r = verb /\ uri r = u
    /\ dict_wf (req_headers r)
    /\ (forall k, k ∈ keys (req_headers r) ->
                  Str.lower k <> "proxy-connection"
                  /\ Str.lower k <> "proxy-authorization")
    /\ trace w' = trace w.
Proof.
  intros Hbegin.
  assert (Hstart : exists u r0,
             _uri url w0 = (Ok u, w0) /\ _vcr_request (self w) = Some r0
             /\ method r0 = verb /\ uri r0 = u /\ proxy_free (req_headers r0)).
  { destruct Hbegin as [Hreq|Hput].
    - destruct (request_ok _ _ _ _ _ _ Hreq) as (u & Huri & Hr & _).
      exists u. eexists. split; [exact Huri|]. split; [exact Hr|].
      cbn [new_Request method uri req_headers].
      split; [reflexivity|]. split; [reflexivity|].
      apply ci_update_proxy_free; [|apply transform_proxy_free].
      split; [apply NoDup_nil; exact I|].
      intros k Hk. now apply elem_of_nil in Hk.
    - destruct (putrequest_ok _ _ _ _ Hput) as (u & Huri & Hr & _).
      exists u. eexists. split; [exact Huri|]. split; [exact Hr|].
      cbn [method uri req_headers].
      split; [reflexivity|]. split; [reflexivity|].
      split; [apply NoDup_nil; exact I|].
      intros k Hk. now apply elem_of_nil in Hk. }
  destruct Hstart as (u & r0 & Huri & Hr0 & Hm & Hu & Hfree).
  destruct (fill_all_proxy_free ops w r0 Hr0 Hfree)
    as (r & Hall & Hm' & Hu' & Hwf & Hnames).
  exists (with_request r w), r, u. split; [exact Hall|].
  split; [reflexivity|]. split; [exact Huri|].
  split; [congruence|]. split; [congruence|]. split; [exact Hwf|].
  split; [|reflexivity]. intros k Hk. now apply proxy_name_false, Hnames.
Qed.


(** ** The live exchange *)

Lemma getresponse_unplayable (w : World) (r : Request) (rc : RC) :
  _vcr_request (self w) = Some r ->
  real_connection (self w) = Some rc ->
  can_play_response_for (cassette w) r = false ->
  write_protected (cassette w) && filter_request (cassette w) r = false ->
  let url := Str.remove_first (url_prefix (self w) rc) (uri r) in
  getresponse w
  = bind (on_real (Call_request (method r) url (body r) (req_headers r))
                  (rc_request (method r) url (body r) (req_headers r)))
      (fun _ =>
         response <- on_real Call_getresponse rc_getresponse ;;
         s <- gets self ;;
         (if _proxied s
          then VCRConnection_setattr (Set_attr "auto_open" (VInt 0))
          else ret tt) ;;;
         response <- alloc (mkRecorded (live_status response)
                              (live_reason response)
                              (serialize_headers (live_msg response))
                              (live_read response)) ;;
         r' <- get_vcr_request ;;
         on_cassette (append r' response) ;;;
         on_store (VCRHTTPResponse_init response)) w.
Proof.
  intros Hr Hrc Hplay Hwp url.
  unfold getresponse at 1, bind at 1 2, get_vcr_request at 1, gets at 1.
  rewrite Hr, Hplay, Hwp. unfold bind at 1, ret at 1, bind at 1.
  now rewrite (_url_ok w rc (uri r) Hrc).
Qed.

Lemma live_exchange (w : World) (r : Request) (rc rc1 rc2 : RC)
    (live : LiveResponse HTTPMessage) (c' : C) :
  _vcr_request (self w) = Some r ->
  real_connection (self w) = Some rc ->
  _proxied (self w) = false ->
  can_play_response_for (cassette w) r = false ->
  write_protected (cassette w) && filter_request (cassette w) r = false ->
  let url := Str.remove_first (url_prefix (self w) rc) (uri r) in
  let l := fresh (dom (store w)) in
  let rr := mkRecorded (live_status live) (live_reason live)
                       (serialize_headers (live_msg live)) (live_read live) in
  rc_request (method r) url (body r) (req_headers r) rc = (Ok tt, rc1) ->
  rc_getresponse rc1 = (Ok live, rc2) ->
  append r l (cassette w) = (Ok tt, c') ->
  getresponse w
  = (Ok (mkResponse l (live_reason live) (live_status live) (live_status live)
                    VNone (mkBytesIO (live_read live) 0) false
                    (parse_headers (rec_headers (strip rr)))
                    (or_None (get_header
                                (parse_headers (rec_headers (strip rr)))
                                "content-length"))),
     mkWorld (with_real rc2 (self w)) c' (<[l := strip rr]> (store w))
             (trace w ++ [Call_request (method r) url (body r) (req_headers r);
                          Call_getresponse])).
Proof.
  intros Hr Hrc Hprox Hplay Hwp url l rr Hreq Hget Happ.
  rewrite (getresponse_unplayable w r rc Hr Hrc Hplay Hwp). fold url.
  unfold bind at 1, on_real at 1. rewrite Hrc, Hreq.
  unfold bind at 1, on_real at 1. cbn [self real_connection with_real].
  rewrite Hget. unfold bind at 1, gets at 1. unfold bind at 1.
  cbn [self with_real _proxied]. rewrite Hprox. unfold ret at 1.
  unfold bind at 1, alloc. cbn [store].
  unfold bind at 1, get_vcr_request. cbn [self with_real _vcr_request].
  rewrite Hr. unfold bind, on_cassette. cbn [cassette]. fold l. fold rr.
  rewrite Happ. unfold on_store. cbn [store self cassette trace].
  rewrite (VCRHTTPResponse_init_ok _ l rr) by apply lookup_insert_eq.
  now rewrite insert_insert_eq, <- app_assoc.
Qed.

(** X14.  The live exchange of a connection that is not proxy-aware.  When
    the cassette cannot play the Request and does not refuse to record,
    [getresponse] calls [request] on the real connection with the method,
    the inverse-mapped URI, the body and the headers of the Request, then
    [getresponse], and nothing else; it stores a new record with the
    status, the reason, the serialized headers and the body read from the
    live response, appends it to the cassette under the Request, and
    returns the response built from that record. *)
Theorem getresponse_live (w : World) (r : Request) (rc rc1 rc2 : RC)
    (live : LiveResponse HTTPMessage) (c' : C) :
  _vcr_request (self w) = Some r ->
  real_connection (self w) = Some rc ->
  _proxied (self w) = false ->
  can_play_response_for (cassette w) r = false ->
  write_protected (cassette w) && filter_request (cassette w) r = false ->
  let url := Str.remove_first (url_prefix (self w) rc) (uri r) in
  let l := fresh (dom (store w)) in
  let rr := mkRecorded (live_status live) (live_reason live)
                       (serialize_headers (live_msg live)) (live_read live) in
  rc_request (method r) url (body r) (req_headers r) rc = (Ok tt, rc1) ->
  rc_getresponse rc1 = (Ok live, rc2) ->
  append r l (cassette w) = (Ok tt, c') ->
  exists response,
    getresponse w
    = (Ok response,
       mkWorld (with_real rc2 (self w)) c' (<[l := strip rr]> (store w))
               (trace w ++ [Call_request (method r) url (body r) (req_headers r);
                            Call_getresponse]))
    /\ store w !! l = None
    /\ recorded_response response = l
    /\ status response = live_status live
    /\ reason response = live_reason live
    /\ read_to_completion [] response = Ok (live_read live).
Proof.
  intros Hr Hrc Hprox Hplay Hwp url l rr Hreq Hget Happ.
  eexists. split.
  { exact (live_exchange w r rc rc1 rc2 live c' Hr Hrc Hprox Hplay Hwp
             Hreq Hget Happ). }
  split.
  { apply not_elem_of_dom. apply is_fresh. }
  repeat split.
Qed.

(** X15.  A fault of the real connection during the live exchange comes
    out of [getresponse] as it is, and then nothing is recorded: the
    cassette and the records are as before. *)
Theorem getresponse_live_fault (w : World) (r : Request) (rc rc1 rc2 : RC)
    (f : Fault) :
  _vcr_request (self w) = Some r ->
  real_connection (self w) = Some rc ->
  can_play_response_for (cassette w) r = false ->
  write_protected (cassette w) && filter_request (cassette w) r = false ->
  let url := Str.remove_first (url_prefix (self w) rc) (uri r) in
  let call := Call_request (method r) url (body r) (req_headers r) in
  (rc_request (method r) url (body r) (req_headers r) rc = (Raise f, rc1) ->
   getresponse w
   = (Raise (exc_of_fault f),
      mkWorld (with_real rc1 (self w)) (cassette w) (store w)
              (trace w ++ [call])))
  /\ (rc_request (method r) url (body r) (req_headers r) rc = (Ok tt, rc1) ->
      rc_getresponse rc1 = (Raise f, rc2) ->
      getresponse w
      = (Raise (exc_of_fault f),
         mkWorld (with_real rc2 (self w)) (cassette w) (store w)
                 (trace w ++ [call; Call_getresponse]))).
Proof.
  intros Hr Hrc Hplay Hwp url call.
  rewrite (getresponse_unplayable w r rc Hr Hrc Hplay Hwp). fold url. fold call.
  split.
  - intros Hreq. unfold bind at 1, on_real at 1. now rewrite Hrc, Hreq.
  - intros Hreq Hget. unfold bind at 1, on_real at 1. rewrite Hrc, Hreq.
    unfold bind at 1, on_real at 1. cbn [self real_connection with_real].
    rewrite Hget. cbn [self cassette store trace with_real _protocol _proxied
      _proxied_host _proxied_port _vcr_request attrs].
    now rewrite <- app_assoc.
Qed.

(** X16.  [connect] reaches the real connection exactly when the cassette
    is not write-protected and cannot play a Request in progress; it then
    makes the one call [connect] and returns or raises what that call
    does. *)
Theorem connect_delegates (w : World) (rc : RC) :
  real_connection (self w) = Some rc ->
  (trace (snd (connect w)) = trace w
   <-> has_playable_request (self w) (cassette w) = true
       \/ write_protected (cassette w) = true)
  /\ (has_playable_request (self w) (cassette w) = false ->
      write_protected (cassette w) = false ->
      connect w
      = (match fst (rc_connect rc) with
         | Ok v => Ok v
         | Raise f => Raise (exc_of_fault f)
         end,
         mkWorld (with_real (snd (rc_connect rc)) (self w)) (cassette w)
                 (store w) (trace w ++ [Call_connect]))).
Proof.
  intros Hrc. unfold connect, bind, gets, ret.
  destruct (has_playable_request (self w) (cassette w)).
  - split; [|discriminate]. cbn [snd]. tauto.
  - destruct (write_protected (cassette w)).
    + split; [|discriminate]. cbn [snd]. tauto.
    + unfold on_real. rewrite Hrc. destruct (rc_connect rc) as [[v|f] rc']; cbn [fst snd trace]; split;
        try reflexivity; split; try (intros [E|E]; discriminate E);
        intros E; apply (f_equal (@List.length _)) in E;
        rewrite length_app in E; cbn in E; lia.
Qed.


Lemma getresponse_playable (w : World) (r : Request) :
  _vcr_request (self w) = Some r ->
  can_play_response_for (cassette w) r = true ->
  getresponse w
  = bind (on_cassette (play_response r))
         (fun l => on_store (VCRHTTPResponse_init l)) w.
Proof.
  intros Hr Hplay.
  unfold getresponse at 1, bind at 1 2, get_vcr_request, gets.
  now rewrite Hr, Hplay.
Qed.

(** X17.  What is recorded live is what is replayed.  After a live
    exchange, when the cassette can play the Request from the record it
    was given, the next [getresponse] makes no call on the real connection
    and returns a response with the status, the reason and the body of the
    live one. *)
Theorem record_then_replay (w : World) (r : Request) (rc rc1 rc2 : RC)
    (live : LiveResponse HTTPMessage) (c' c'' : C) :
  _vcr_request (self w) = Some r ->
  real_connection (self w) = Some rc ->
  _proxied (self w) = false ->
  can_play_response_for (cassette w) r = false ->
  write_protected (cassette w) && filter_request (cassette w) r = false ->
  let url := Str.remove_first (url_prefix (self w) rc) (uri r) in
  let l := fresh (dom (store w)) in
  rc_request (method r) url (body r) (req_headers r) rc = (Ok tt, rc1) ->
  rc_getresponse rc1 = (Ok live, rc2) ->
  append r l (cassette w) = (Ok tt, c') ->
  can_play_response_for c' r = true ->
  play_response r c' = (Ok l, c'') ->
  exists first w1 second w2,
    getresponse w = (Ok first, w1)
    /\ getresponse w1 = (Ok second, w2)
    /\ trace w2 = trace w1
    /\ real_connection (self w2) = real_connection (self w1)
    /\ status second = status first
    /\ reason second = reason first
    /\ read_to_completion [] second = read_to_completion [] first
    /\ read_to_completion [] first = Ok (live_read live).
Proof.
  intros Hr Hrc Hprox Hplay Hwp url l Hreq Hget Happ Hplay' Hplayed.
  eexists. eexists. eexists. eexists. split.
  { exact (live_exchange w r rc rc1 rc2 live c' Hr Hrc Hprox Hplay Hwp
             Hreq Hget Happ). }
  split.
  { rewrite (getresponse_playable _ r) by assumption.
    unfold bind, on_cassette, on_store. cbn [cassette]. fold l. rewrite Hplayed.
    cbn [store self cassette trace].
    rewrite (VCRHTTPResponse_init_ok _ l _ (lookup_insert_eq _ _ _)).
    reflexivity. }
  repeat split.
Qed.

(** ** Usage faults and tunnel setup *)

(** X18.  A proxy-aware connection without a tunnel host: for http the
    path that [request] is given is already the URI, and the Request gets
    it unchanged; for https [request] and [putrequest] raise an
    [AssertionError] and change nothing. *)
Theorem request_without_tunnel (w : World) (verb url : string)
    (b : option string) (hs : option headers) :
  _proxied (self w) = true ->
  no_host (_proxied_host (self w)) = true ->
  (_protocol (self w) = http ->
   _uri url w = (Ok url, w)
   /\ request verb url b hs w
      = VCRConnection_setattr
          (Set_vcr_request
             (new_Request verb url b
                (transform_proxy_headers (or_empty hs)))) w)
  /\ (_protocol (self w) = https ->
      exists msg,
        request verb url b hs w = (Raise (AssertionError msg), w)
        /\ putrequest verb url w = (Raise (AssertionError msg), w)).
Proof.
  intros Hp Hh.
  assert (Huri : _uri url w
                 = match _protocol (self w) with
                   | http => (Ok url, w)
                   | https => (Raise (AssertionError
                       "we should be proxied, but the client never called set_tunnel"),
                               w)
                   end).
  { unfold _uri, bind, gets. rewrite Hp, Hh. cbn [andb].
    now destruct (_protocol (self w)). }
  split; intros Hproto; rewrite Hproto in Huri.
  - split; [exact Huri|]. unfold request, bind. now rewrite Huri.
  - eexists. unfold request, putrequest, bind. rewrite Huri. now split.
Qed.


Lemma setattr_plain (a : Assign) (w w' : World) (rc : RC) :
  real_connection (self w) = Some rc ->
  VCRConnection_setattr a w = (Ok tt, w') ->
  plain a = true ->
  exists rc',
    w' = snd (object_setattr a
                (after_real w (Call_setattr (assign_name a) (assign_value a))
                            rc'))
    /\ real_connection (self w') = Some rc'
    /\ trace w' = trace w ++ [Call_setattr (assign_name a) (assign_value a)].
Proof.
  intros Hrc Hset Hplain.
  destruct a; try discriminate Hplain; revert Hset;
    unfold VCRConnection_setattr, bind, except_AttributeError_pass, on_real;
    rewrite Hrc;
    (destruct (rc_setattr _ _ rc) as [[[]|[|cls]] rc']; try discriminate);
    cbn; intros [= <-]; exists rc'; repeat split.
Qed.


(** X19.  [set_tunnel] on a connection that is not proxy-aware raises an
    [AssertionError] and changes nothing.  On a proxy-aware connection,
    when it returns, the real connection has been given the tunnel host and
    the tunnel port as attributes and then the call [set_tunnel] with the
    arguments of the caller as they were; the port that the proxy keeps is
    the default of the protocol when the caller gave none or gave 0. *)
Theorem set_tunnel_calls (w : World) (rc : RC) (host : string)
    (port : option Z) (hs : option headers) :
  real_connection (self w) = Some rc ->
  (_proxied (self w) = false ->
   exists msg, set_tunnel host port hs w = (Raise (AssertionError msg), w))
  /\ (forall w',
        set_tunnel host port hs w = (Ok tt, w') ->
        trace w'
        = trace w
          ++ [Call_setattr "_proxied_host" (VStr host);
              Call_setattr "_proxied_port"
                (VInt (port_or_default port (_protocol (self w))));
              Call_set_tunnel host port hs]
        /\ _proxied_port (self w')
           = Some (port_or_default port (_protocol (self w)))
        /\ (port = None \/ port = Some 0 ->
            _proxied_port (self w') = Some (default_port (_protocol (self w))))).
Proof.
  intros Hrc. split.
  - intros Hp. eexists. unfold set_tunnel, bind, gets, raise. now rewrite Hp.
  - intros w'. unfold set_tunnel, bind at 1 2, gets.
    destruct (_proxied (self w)) eqn:Hp; [|discriminate].
    unfold ret at 1, bind at 1.
    destruct (VCRConnection_setattr (Set_proxied_host (Some host)) w)
      as [[[]|e] w1] eqn:E1; [|discriminate].
    destruct (setattr_plain _ _ _ rc Hrc E1 eq_refl) as (rc1 & Hw1 & Hrc1 & Ht1).
    unfold bind at 1, gets. unfold bind at 1.
    assert (Hproto : _protocol (self w1) = _protocol (self w)) by now subst w1.
    rewrite Hproto.
    destruct (VCRConnection_setattr (Set_proxied_port _) w1)
      as [[[]|e] w2] eqn:E2; [|discriminate].
    destruct (setattr_plain _ _ _ rc1 Hrc1 E2 eq_refl)
      as (rc2 & Hw2 & Hrc2 & Ht2).
    assert (Hport : _proxied_port (self w2)
                    = Some (port_or_default port (_protocol (self w))))
      by now subst w2.
    unfold on_real. rewrite Hrc2.
    destruct (rc_set_tunnel host port hs rc2) as [[[]|f] rc3]; [|discriminate].
    intros [= <-]. cbn [trace self with_real _proxied_port].
    rewrite Ht2, Ht1, Hport, <- !app_assoc. split; [reflexivity|].
    split; [reflexivity|]. intros [-> | ->]; reflexivity.
Qed.

(** X20.  [__init__] on a new object.  When the constructor of the real
    connection raises, [__init__] raises the same and the object is as it
    was.  When [__init__] returns, the proxy has a real connection, is
    proxy-aware exactly when its scheme is among the proxied protocols of
    the environment, has no tunnel host, no tunnel port and no Request; the
    assignment of [real_connection] itself was not passed to a real
    connection, the three that follow were. *)
Theorem init_new_object (w : World) (protocol : Protocol) (args : list PyVal) :
  self w = new_object protocol ->
  (forall f, _baseclass args = Raise f ->
             VCRConnection_init args w = (Raise (exc_of_fault f), w))
  /\ (forall w',
        VCRConnection_init args w = (Ok tt, w') ->
        let aware := existsb (String.eqb (protocol_name protocol))
                             (proxied_protocols environ) in
        real_connection (self w') <> None
        /\ _protocol (self w') = protocol
        /\ _proxied (self w') = aware
        /\ _proxied_host (self w') = None
        /\ _proxied_port (self w') = None
        /\ _vcr_request (self w') = None
        /\ trace w'
           = trace w ++ [Call_setattr "_proxied" (VBool aware);
                         Call_setattr "_proxied_host" VNone;
                         Call_setattr "_proxied_port" VNone]).
Proof.
  intros Hself. unfold VCRConnection_init. split.
  - intros f ->. reflexivity.
  - intros w'. destruct (_baseclass args) as [rc|f]; [|discriminate].
    unfold bind at 1.
    assert (E0 : VCRConnection_setattr (Set_real_connection rc) w
                 = (Ok tt, set_self (with_real rc) w)).
    { unfold VCRConnection_setattr, bind, except_AttributeError_pass, on_real.
      now rewrite Hself. }
    rewrite E0. unfold bind at 1, gets. unfold bind at 1.
    set (w0 := set_self (with_real rc) w).
    assert (Hrc0 : real_connection (self w0) = Some rc) by reflexivity.
    assert (Hp0 : _protocol (self w0) = protocol)
      by (unfold w0; cbn; now rewrite Hself).
    rewrite Hp0.
    destruct (VCRConnection_setattr (Set_proxied _) w0)
      as [[[]|e] w1] eqn:E1; [|discriminate].
    destruct (setattr_plain _ _ _ rc Hrc0 E1 eq_refl) as (rc1 & Hw1 & Hrc1 & Ht1).
    unfold bind at 1.
    destruct (VCRConnection_setattr (Set_proxied_host None) w1)
      as [[[]|e] w2] eqn:E2; [|discriminate].
    destruct (setattr_plain _ _ _ rc1 Hrc1 E2 eq_refl)
      as (rc2 & Hw2 & Hrc2 & Ht2).
    intros E3.
    destruct (setattr_plain _ _ _ rc2 Hrc2 E3 eq_refl)
      as (rc3 & Hw3 & Hrc3 & Ht3).
    cbv zeta. rewrite Hrc3, Ht3, Ht2, Ht1, <- !app_assoc.
    split; [discriminate|].
    subst w' w2 w1. unfold w0. cbn. rewrite Hself. cbn. repeat split.
Qed.


(** X22.  The live exchange of a proxy-aware connection.  After the
    response has been fetched, [auto_open = 0] is assigned, on the real
    connection first.  When that assignment returns, the exchange is
    recorded and replayed as for any connection.  When the setter of the
    real connection raises another exception than [AttributeError],
    [getresponse] raises it after the exchange has taken place, and the
    exchange is not recorded. *)
Theorem getresponse_live_proxied (w : World) (r : Request) (rc rc1 rc2 rc3 : RC)
    (live : LiveResponse HTTPMessage) :
  _vcr_request (self w) = Some r ->
  real_connection (self w) = Some rc ->
  _proxied (self w) = true ->
  can_play_response_for (cassette w) r = false ->
  write_protected (cassette w) && filter_request (cassette w) r = false ->
  let url := Str.remove_first (url_prefix (self w) rc) (uri r) in
  let l := fresh (dom (store w)) in
  let rr := mkRecorded (live_status live) (live_reason live)
                       (serialize_headers (live_msg live)) (live_read live) in
  let calls := [Call_request (method r) url (body r) (req_headers r);
                Call_getresponse; Call_setattr "auto_open" (VInt 0)] in
  rc_request (method r) url (body r) (req_headers r) rc = (Ok tt, rc1) ->
  rc_getresponse rc1 = (Ok live, rc2) ->
  (forall c',
      rc_setattr "auto_open" (VInt 0) rc2 = (Ok tt, rc3) ->
      append r l (cassette w) = (Ok tt, c') ->
      exists response w',
        getresponse w = (Ok response, w')
        /\ trace w' = trace w ++ calls
        /\ cassette w' = c'
        /\ store w' = <[l := strip rr]> (store w)
        /\ dict_get "auto_open" (attrs (self w')) = Some (VInt 0)
        /\ read_to_completion [] response = Ok (live_read live))
  /\ (forall cls,
        rc_setattr "auto_open" (VInt 0) rc2 = (Raise (FaultOther cls), rc3) ->
        exists w',
          getresponse w = (Raise (Passed cls), w')
          /\ trace w' = trace w ++ calls
          /\ cassette w' = cassette w
          /\ store w' = store w).
Proof.
  intros Hr Hrc Hprox Hplay Hwp url l rr calls Hreq Hget.
  assert (Hstep : getresponse w
    = bind (VCRConnection_setattr (Set_attr "auto_open" (VInt 0)))
        (fun _ =>
           response <- alloc rr ;;
           r' <- get_vcr_request ;;
           on_cassette (append r' response) ;;;
           on_store (VCRHTTPResponse_init response))
        (mkWorld (with_real rc2 (with_real rc1 (self w))) (cassette w) (store w)
           ((trace w ++ [Call_request (method r) url (body r) (req_headers r)])
            ++ [Call_getresponse]))).
  { rewrite (getresponse_unplayable w r rc Hr Hrc Hplay Hwp). fold url.
    unfold bind at 1, on_real at 1. rewrite Hrc, Hreq.
    unfold bind at 1, on_real at 1. cbn [self real_connection with_real].
    rewrite Hget. unfold bind at 1, gets at 1.
    cbn [self with_real _proxied]. now rewrite Hprox. }
  rewrite Hstep. clear Hstep.
  split; [intros c' Hset Happ|intros cls Hset];
    unfold VCRConnection_setattr, bind at 1, bind at 1,
      except_AttributeError_pass, on_real at 1;
    cbn [self real_connection with_real assign_name assign_value];
    rewrite Hset.
  - idtac.
    cbn [object_setattr modify set_self self cassette store trace].
    unfold bind at 1, alloc. cbn [store].
    unfold bind at 1, get_vcr_request.
    cbn [self set_self with_real _vcr_request cassette store trace].
    rewrite Hr. unfold bind, on_cassette. cbn [cassette]. fold l.
    rewrite Happ. unfold on_store. cbn [store self cassette trace].
    rewrite (VCRHTTPResponse_init_ok _ l rr) by apply lookup_insert_eq.
    eexists. eexists. split; [reflexivity|]. cbn [trace cassette store self attrs].
    rewrite insert_insert_eq, <- !app_assoc. repeat split.
    apply dict_get_set_eq.
  - eexists. split; [reflexivity|].
    cbn [trace cassette store]. rewrite <- !app_assoc. repeat split.
Qed.

End ConnectionMore.

(** X21.  A scheme is among the proxied protocols exactly when the
    environment has a non-empty value under [<scheme>_proxy] in lower case
    or in upper case; no other spelling of the variable counts. *)
Theorem proxied_protocols_env (env : dict string) (protocol : Protocol) :
  existsb (String.eqb (protocol_name protocol)) (proxied_protocols env)
  = env_set env (protocol_name protocol +:+ "_proxy")
    || env_set env (Str.upper (protocol_name protocol +:+ "_proxy")).
Proof.
  unfold proxied_protocols. cbn [flat_map].
  change (nth 0 (Str.split "_" "http_proxy") "") with "http".
  change (nth 0 (Str.split "_" "https_proxy") "") with "https".
  change (Str.upper "http_proxy") with "HTTP_PROXY".
  change (Str.upper "https_proxy") with "HTTPS_PROXY".
  destruct protocol; cbn [protocol_name];
    [change (Str.upper ("http" +:+ "_proxy")) with "HTTP_PROXY";
     change ("http" +:+ "_proxy") with "http_proxy"
    |change (Str.upper ("https" +:+ "_proxy")) with "HTTPS_PROXY";
     change ("https" +:+ "_proxy") with "https_proxy"];
    destruct (env_set env "http_proxy" || env_set env "HTTP_PROXY");
    destruct (env_set env "https_proxy" || env_set env "HTTPS_PROXY");
    reflexivity.
Qed.



(* ===================================================================== *)
(** * Further properties on concrete inputs *)
(* ===================================================================== *)

Lemma transform_proxy_headers_drops_proxy_names_witness :
  "Connection" ∈ keys (transform_proxy_headers Samples.proxy_sample)
  /\ Str.lower "Connection" <> "proxy-connection"
  /\ Str.lower "Connection" <> "proxy-authorization".
Proof.
  assert (Hin : "Connection" ∈ keys (transform_proxy_headers Samples.proxy_sample)).
  { apply elem_of_cons. now left. }
  split; [exact Hin|].
  exact (proj2 (transform_proxy_headers_drops_proxy_names Samples.proxy_sample)
               "Connection" Hin).
Defined.

Lemma transform_proxy_headers_fixed_witness :
  dict_wf Cases.plain_headers
  /\ transform_proxy_headers Cases.plain_headers = Cases.plain_headers.
Proof.
  assert (Hwf : dict_wf Cases.plain_headers).
  { apply (bool_decide_unpack _). vm_compute. exact I. }
  split; [exact Hwf|].
  apply (transform_proxy_headers_fixed Cases.plain_headers Hwf).
  intros k Hk. apply elem_of_cons in Hk as [->|Hk]; [split; discriminate|].
  apply elem_of_cons in Hk as [->|Hk]; [split; discriminate|].
  now apply elem_of_nil in Hk.
Defined.

Lemma read_after_end_witness :
  let ended := snd (VCRHTTPResponse_read None Cases.hello) in
  fst (VCRHTTPResponse_read (Some 4) ended) = Ok ""
  /\ fst (VCRHTTPResponse_read (Some (2 ^ 70)) ended) = Raise OverflowError
  /\ exists chunk,
       fst (VCRHTTPResponse_read (Some 2) Cases.hello) = Ok chunk
       /\ (String.length chunk <= Z.to_nat 2)%nat.
Proof.
  cbv zeta.
  assert (Hfits : - 2 ^ 63 <= 4 <= 2 ^ 63 - 1) by lia.
  assert (Hbig : ~ (- 2 ^ 63 <= 2 ^ 70 <= 2 ^ 63 - 1)) by lia.
  assert (Hn : 0 <= 2 <= 2 ^ 63 - 1) by lia.
  split; [|split].
  - exact (proj1 (read_after_end Cases.hello (Some 4)) Hfits).
  - exact (proj1 (proj2 (read_after_end Cases.hello (Some (2 ^ 70)))) Hbig).
  - exact (proj2 (proj2 (proj2 (proj2 (proj2
             (read_after_end Cases.hello None))))) 2 Hn).
Defined.

Lemma send_accumulates_witness :
  _vcr_request (self Samples.accepting)
  = Some (mkRequest "GET" "https://api.test/widgets" (Some "")
                    [("Accept", ["text/html"]); ("Host", ["api.test"])])
  /\ exists w',
       send_all ["a=1"; ""; "&b=2"] Samples.accepting = (Ok tt, w')
       /\ option_map body (_vcr_request (self w')) = Some (Some "a=1&b=2").
Proof.
  split; [reflexivity|].
  destruct (send_accumulates [""; "&b=2"] Samples.accepting _ "a=1" eq_refl)
    as (w' & Hsend & Hreq & _).
  exists w'. split; [exact Hsend|]. now rewrite Hreq.
Defined.

Lemma fill_needs_request_witness :
  Fill_send "a=1" <> Fill_endheaders None
  /\ fill (Fill_send "a=1") Samples.fresh_direct
     = (Raise AttributeError, Samples.fresh_direct)
  /\ fst (fill (Fill_send "a=1") Samples.accepting) = Ok tt.
Proof.
  assert (Hop : Fill_send "a=1" <> Fill_endheaders None) by discriminate.
  split; [exact Hop|]. split.
  - exact (proj1 (proj1 (fill_needs_request (Fill_send "a=1")
                           Samples.fresh_direct Hop)) eq_refl).
  - refine (proj1 (proj1 (proj2 (fill_needs_request (Fill_send "a=1")
                                   Samples.accepting Hop))) _).
    discriminate.
Defined.

Lemma request_stays_proxy_free_witness :
  let begun :=
    request "GET" "/widgets" None
      (Some [("Proxy-Authorization", ["Basic x"]); ("Accept", ["*/*"])])
      Samples.fresh_direct in
  let ops := [Fill_putheader "Proxy-Connection" ["keep-alive"];
              Fill_putheader "proxy-authorization" ["Basic y"];
              Fill_send "a=1"] in
  begun = (Ok tt, snd begun)
  /\ exists w' r,
       fill_all ops (snd begun) = (Ok tt, w')
       /\ _vcr_request (self w') = Some r
       /\ dict_wf (req_headers r)
       /\ option_map req_headers (_vcr_request (self (snd (fill_all ops (snd begun)))))
          = Some [("Accept", ["*/*"]); ("Connection", ["keep-alive"])].
Proof.
  cbv zeta.
  assert (Hreq : request "GET" "/widgets" None
                   (Some [("Proxy-Authorization", ["Basic x"]); ("Accept", ["*/*"])])
                   Samples.fresh_direct
                 = (Ok tt, snd (request "GET" "/widgets" None
                   (Some [("Proxy-Authorization", ["Basic x"]); ("Accept", ["*/*"])])
                   Samples.fresh_direct))) by reflexivity.
  split; [exact Hreq|].
  destruct (request_stays_proxy_free "GET" "/widgets" None
               (Some [("Proxy-Authorization", ["Basic x"]); ("Accept", ["*/*"])])
               [Fill_putheader "Proxy-Connection" ["keep-alive"];
                Fill_putheader "proxy-authorization" ["Basic y"];
                Fill_send "a=1"]
               Samples.fresh_direct _ (or_introl Hreq))
    as (w' & r & u & Hfill & Hr & _ & _ & _ & Hwf & _).
  exists w', r. split; [exact Hfill|]. split; [exact Hr|].
  split; [exact Hwf|reflexivity].
Defined.

Lemma getresponse_live_witness :
  exists response w',
    getresponse Cases.recording = (Ok response, w')
    /\ trace w' = [Call_request "GET" "/widgets" None []; Call_getresponse]
    /\ Double.t_data (cassette w') = [("GET", "https://api.test/widgets", 0%nat)]
    /\ read_to_completion [] response = Ok "live".
Proof.
  pose proof (getresponse_live Cases.recording Samples.get_widgets
                (Double.mkDouble "api.test" 443 [])
                (Double.mkDouble "api.test" 443 [])
                (Double.mkDouble "api.test" 443 []) Double.d_response
                (Cases.recorded_once Samples.get_widgets)) as Hlive.
  destruct (Hlive eq_refl eq_refl eq_refl eq_refl eq_refl eq_refl eq_refl
                  eq_refl)
    as (response & Hget & _ & _ & _ & _ & Hread).
  eexists. eexists. split; [exact Hget|]. split; [reflexivity|].
  split; [reflexivity|exact Hread].
Defined.

Lemma getresponse_live_fault_witness :
  getresponse (Flaky.world_of "request" false)
  = (Raise (Passed "OSError"),
     mkWorld (self (Flaky.world_of "request" false)) (Double.blank_tape false) ∅
             [Call_request "GET" "/widgets" None []])
  /\ getresponse (Flaky.world_of "getresponse" false)
     = (Raise (Passed "OSError"),
        mkWorld (self (Flaky.world_of "getresponse" false))
                (Double.blank_tape false) ∅
                [Call_request "GET" "/widgets" None []; Call_getresponse]).
Proof.
  pose proof (getresponse_live_fault (Flaky.world_of "request" false)
                Samples.get_widgets (Flaky.mkFlaky "api.test" 443 "request")
                (Flaky.mkFlaky "api.test" 443 "request")
                (Flaky.mkFlaky "api.test" 443 "request")
                (FaultOther "OSError")) as Hfirst.
  pose proof (getresponse_live_fault (Flaky.world_of "getresponse" false)
                Samples.get_widgets
                (Flaky.mkFlaky "api.test" 443 "getresponse")
                (Flaky.mkFlaky "api.test" 443 "getresponse")
                (Flaky.mkFlaky "api.test" 443 "getresponse")
                (FaultOther "OSError")) as Hsecond.
  split.
  - exact (proj1 (Hfirst eq_refl eq_refl eq_refl eq_refl) eq_refl).
  - exact (proj2 (Hsecond eq_refl eq_refl eq_refl eq_refl) eq_refl eq_refl).
Defined.

Lemma connect_delegates_witness :
  real_connection (self Cases.recording)
  = Some (Double.mkDouble "api.test" 443 [])
  /\ trace (snd (connect Cases.recording)) = [Call_connect]
  /\ trace (snd (connect Samples.replaying)) = trace Samples.replaying.
Proof.
  pose proof (connect_delegates Cases.recording
                (Double.mkDouble "api.test" 443 [])) as Hcall.
  pose proof (connect_delegates Samples.replaying
                (Double.mkDouble "api.test" 443 [])) as Hquiet.
  split; [reflexivity|]. split.
  - rewrite (proj2 (Hcall eq_refl) eq_refl eq_refl). reflexivity.
  - exact (proj2 (proj1 (Hquiet eq_refl)) (or_introl eq_refl)).
Defined.

Lemma record_then_replay_witness :
  exists first w1 second w2,
    getresponse Cases.recording = (Ok first, w1)
    /\ getresponse w1 = (Ok second, w2)
    /\ trace w2 = trace w1
    /\ read_to_completion [] second = Ok "live".
Proof.
  pose proof (record_then_replay Cases.recording Samples.get_widgets
                (Double.mkDouble "api.test" 443 [])
                (Double.mkDouble "api.test" 443 [])
                (Double.mkDouble "api.test" 443 []) Double.d_response
                (Cases.recorded_once Samples.get_widgets)
                (Cases.recorded_once Samples.get_widgets)) as Hreplay.
  destruct (Hreplay eq_refl eq_refl eq_refl eq_refl eq_refl eq_refl eq_refl
                    eq_refl eq_refl eq_refl)
    as (first & w1 & second & w2 & H1 & H2 & Ht & _ & _ & _ & Hsame & Hlive).
  exists first, w1, second, w2. split; [exact H1|]. split; [exact H2|].
  split; [exact Ht|]. rewrite Hsame, Hlive. reflexivity.
Defined.

Lemma request_without_tunnel_witness :
  _uri "http://origin.test/widgets" Cases.http_proxied
  = (Ok "http://origin.test/widgets", Cases.http_proxied)
  /\ exists msg,
       request "GET" "/widgets" None None Samples.fresh_proxied
       = (Raise (AssertionError msg), Samples.fresh_proxied).
Proof.
  pose proof (request_without_tunnel Cases.http_proxied "GET"
                "http://origin.test/widgets" None None) as Hhttp.
  pose proof (request_without_tunnel Samples.fresh_proxied "GET"
                "/widgets" None None) as Hhttps.
  split.
  - exact (proj1 (proj1 (Hhttp eq_refl eq_refl) eq_refl)).
  - destruct (proj2 (Hhttps eq_refl eq_refl) eq_refl) as (msg & Hreq & _).
    exists msg. exact Hreq.
Defined.

Lemma set_tunnel_calls_witness :
  (exists msg,
     set_tunnel "example.com" (Some 0) None Samples.fresh_direct
     = (Raise (AssertionError msg), Samples.fresh_direct))
  /\ exists w',
       set_tunnel "example.com" (Some 0) None Samples.fresh_proxied = (Ok tt, w')
       /\ trace w' = [Call_setattr "_proxied_host" (VStr "example.com");
                      Call_setattr "_proxied_port" (VInt 443);
                      Call_set_tunnel "example.com" (Some 0) None]
       /\ _proxied_port (self w') = Some 443.
Proof.
  pose proof (set_tunnel_calls Samples.fresh_direct
                (Double.mkDouble "api.test" 443 []) "example.com" (Some 0) None)
    as Hfault.
  pose proof (set_tunnel_calls Samples.fresh_proxied
                (Double.mkDouble "proxy.test" 3128 []) "example.com" (Some 0)
                None) as Hcalls.
  split.
  - exact (proj1 (Hfault eq_refl) eq_refl).
  - exists (snd (set_tunnel "example.com" (Some 0) None Samples.fresh_proxied)).
    split; [reflexivity|].
    destruct (proj2 (Hcalls eq_refl) _ eq_refl) as (Ht & _ & Hport).
    split; [exact Ht|]. exact (Hport (or_intror eq_refl)).
Defined.

Lemma init_new_object_witness :
  self Cases.unborn = new_object https
  /\ (exists w',
        VCRConnection_init [] Cases.unborn = (Ok tt, w')
        /\ _proxied (self w') = true
        /\ trace w' = [Call_setattr "_proxied" (VBool true);
                       Call_setattr "_proxied_host" VNone;
                       Call_setattr "_proxied_port" VNone])
  /\ VCRConnection_init [] Cases.unborn_flaky
     = (Raise (Passed "OSError"), Cases.unborn_flaky).
Proof.
  pose proof (init_new_object Cases.unborn https []) as Hok.
  pose proof (init_new_object Cases.unborn_flaky https []) as Hfail.
  split; [reflexivity|]. split.
  - exists (snd (VCRConnection_init [] Cases.unborn)). split; [reflexivity|].
    destruct (proj2 (Hok eq_refl) _ eq_refl) as (_ & _ & Hp & _ & _ & _ & Ht).
    split; [exact Hp|exact Ht].
  - exact (proj1 (Hfail eq_refl) (FaultOther "OSError") eq_refl).
Defined.

Lemma getresponse_live_proxied_witness :
  (exists response w',
     getresponse Cases.recording_proxied = (Ok response, w')
     /\ dict_get "auto_open" (attrs (self w')) = Some (VInt 0))
  /\ exists w',
       getresponse (Flaky.world_of "auto_open" true)
       = (Raise (Passed "OSError"), w')
       /\ cassette w' = Double.blank_tape false.
Proof.
  pose proof (getresponse_live_proxied Cases.recording_proxied
                (mkRequest "GET" "https://example.com/widgets" None [])
                (Double.mkDouble "proxy.test" 3128 [])
                (Double.mkDouble "proxy.test" 3128 [])
                (Double.mkDouble "proxy.test" 3128 [])
                (Double.mkDouble "proxy.test" 3128 [("auto_open", VInt 0)])
                Double.d_response) as Hok.
  pose proof (getresponse_live_proxied (Flaky.world_of "auto_open" true)
                Samples.get_widgets
                (Flaky.mkFlaky "api.test" 443 "auto_open")
                (Flaky.mkFlaky "api.test" 443 "auto_open")
                (Flaky.mkFlaky "api.test" 443 "auto_open")
                (Flaky.mkFlaky "api.test" 443 "auto_open")
                Double.d_response) as Hfail.
  split.
  - destruct (proj1 (Hok eq_refl eq_refl eq_refl eq_refl eq_refl eq_refl
                         eq_refl)
                (Cases.recorded_once
                   (mkRequest "GET" "https://example.com/widgets" None []))
                eq_refl eq_refl)
      as (response & w' & Hget & _ & _ & _ & Hattr & _).
    exists response, w'. split; [exact Hget|exact Hattr].
  - destruct (proj2 (Hfail eq_refl eq_refl eq_refl eq_refl eq_refl eq_refl
                           eq_refl) "OSError" eq_refl)
      as (w' & Hget & _ & Hc & _).
    exists w'. split; [exact Hget|exact Hc].
Defined.
